(** * Polarion REST session: a shallow embedding of [src/polarion.ts]

    The session class [Polarion], its caches, the enumeration resolvers,
    the icon and attachment downloads, the restart policy and
    [createPolarion] are embedded as functions in a state-and-exception
    monad.  The remote service, the clock and the VS Code settings are
    inputs of the model.

    Conventions of the embedding:
    - a JavaScript string is a [string] of bytes; [Buffer.from(s)] is the
      identity on them;
    - a JavaScript number holding a count, a duration or a time stamp is
      a [Z];
    - [undefined] and [null] are [None];
    - a [Map<string, V>] is a [gmap string V];
    - an object reference is an index into the heap of session objects. *)

From Stdlib Require Import ZArith String Ascii List.
From stdpp Require Import base option list gmap strings pretty.

Local Open Scope Z_scope.

(** ** JavaScript strings *)

Module Js.

(** Truthiness of a value that is a string or [undefined]: [undefined]
    and the empty string are falsy. *)
Definition truthy (v : option string) : bool :=
  match v with
  | Some s => negb (String.eqb s "")
  | None => false
  end.

(** [a || b] where [a] is a string or [undefined] and [b] is a string. *)
Definition or_else (a : option string) (b : string) : string :=
  match a with
  | Some s => if String.eqb s "" then b else s
  | None => b
  end.

(** [a || b] where both sides may be [undefined]. *)
Definition or_opt (a b : option string) : option string :=
  if truthy a then a else b.

(** [s.endsWith(suffix)] *)
Definition endsWith (s suffix : string) : bool :=
  let n := String.length s in
  let k := String.length suffix in
  (k <=? n)%nat && String.eqb (String.substring (n - k) k s) suffix.

(** [s.slice(0, e)]: a negative [e] counts from the end. *)
Definition slice0 (s : string) (e : Z) : string :=
  let n := Z.of_nat (String.length s) in
  let stop := if e <? 0 then Z.max (n + e) 0 else Z.min e n in
  String.substring 0 (Z.to_nat stop) s.

(** White space removed by [trim], as far as it fits in one byte. *)
Definition is_space (c : ascii) : bool :=
  let n := nat_of_ascii c in
  ((9 <=? n) && (n <=? 13))%nat || (n =? 32)%nat.

Fixpoint trimStart (s : string) : string :=
  match s with
  | String c r => if is_space c then trimStart r else s
  | EmptyString => EmptyString
  end.

Definition rev_string (s : string) : string :=
  string_of_list_ascii (List.rev (list_ascii_of_string s)).

(** [s.trim()] *)
Definition trim (s : string) : string :=
  rev_string (trimStart (rev_string (trimStart s))).

Definition lower_ascii (c : ascii) : ascii :=
  let n := nat_of_ascii c in
  if ((65 <=? n) && (n <=? 90))%nat then ascii_of_nat (n + 32) else c.

(** [s.toLowerCase()] on ASCII letters. *)
Fixpoint toLowerCase (s : string) : string :=
  match s with
  | String c r => String (lower_ascii c) (toLowerCase r)
  | EmptyString => EmptyString
  end.

(** [s.split('.').pop()]: the text after the last dot, the whole string
    when it has no dot.  [acc] is the piece read so far. *)
Fixpoint last_piece (acc s : string) : string :=
  match s with
  | String c r =>
      if Ascii.eqb c "."%char then last_piece "" r
      else last_piece (acc +:+ String c "") r
  | EmptyString => acc
  end.

Definition split_dot_pop (s : string) : string := last_piece "" s.

(** *** Base64, as [Buffer.prototype.toString('base64')] *)

Definition alphabet : string :=
  "ABCDEFGHIJKLMNOPQRSTUVWXYZabcdefghijklmnopqrstuvwxyz0123456789+/".

Definition digit (n : N) : ascii :=
  match String.get (N.to_nat n) alphabet with
  | Some c => c
  | None => "="%char
  end.

Fixpoint encode (l : list N) : string :=
  match l with
  | a :: b :: c :: rest =>
      let n := (a * 65536 + b * 256 + c)%N in
      String (digit (n / 262144)%N)
        (String (digit ((n / 4096) mod 64)%N)
           (String (digit ((n / 64) mod 64)%N)
              (String (digit (n mod 64)%N) (encode rest))))
  | [a; b] =>
      let n := (a * 65536 + b * 256)%N in
      String (digit (n / 262144)%N)
        (String (digit ((n / 4096) mod 64)%N)
           (String (digit ((n / 64) mod 64)%N) "="))
  | [a] =>
      let n := (a * 65536)%N in
      String (digit (n / 262144)%N)
        (String (digit ((n / 4096) mod 64)%N) "==")
  | [] => ""
  end.

Definition base64 (s : string) : string :=
  encode (List.map N_of_ascii (list_ascii_of_string s)).

End Js.

(** Truthiness of a number or [undefined]: [undefined] and [0] are falsy. *)
Definition truthy_num (v : option Z) : bool :=
  match v with
  | Some n => negb (n =? 0)
  | None => false
  end.

(** ** Errors and log levels *)

Inductive LogLevel := info | error.

(** A thrown value: an [Error] with its [name] and [message]; an axios
    error for a reply outside 2xx also has [error.response.status]. *)
Record JsError := {
  err_name : string;
  err_message : string;
  err_status : option Z
}.

(** [new Error(msg)] *)
Definition Error (msg : string) : JsError :=
  {| err_name := "Error"; err_message := msg; err_status := None |}.

Definition TypeError (msg : string) : JsError :=
  {| err_name := "TypeError"; err_message := msg; err_status := None |}.

(** The text of an error inside a template string, [Error.prototype.toString]. *)
Definition error_to_string (e : JsError) : string :=
  if String.eqb (err_message e) "" then err_name e
  else if String.eqb (err_name e) "" then err_message e
  else err_name e +:+ ": " +:+ err_message e.

(** [error.response?.status === n] *)
Definition status_is (e : JsError) (n : Z) : bool :=
  match err_status e with
  | Some s => s =? n
  | None => false
  end.

(** ** The data model *)

(** Values of the status, type and user mappings. *)
Record StatusInfo := {
  st_name : string;
  st_color : option string;
  st_iconPath : option string
}.

Record TypeInfo := {
  ty_name : string;
  ty_iconPath : option string
}.

Record UserInfo := {
  us_name : string;
  us_email : option string;
  us_initials : option string
}.

(** A description arrives as a text or as an object with a [value]. *)
Inductive JsDescription :=
| DescText (text : string)
| DescObject (value : option string).

Definition description_truthy (d : option JsDescription) : bool :=
  match d with
  | Some (DescText text) => negb (String.eqb text "")
  | Some (DescObject _) => true
  | None => false
  end.

(** [d.value || d] *)
Definition description_content (d : JsDescription) : JsDescription :=
  match d with
  | DescObject (Some v) => if String.eqb v "" then d else DescText v
  | _ => d
  end.

(** The closure [downloadAttachment] of a work item: the session object,
    the item id and the project id it captured. *)
Record AttachmentLoader := {
  dl_session : nat;
  dl_itemId : string;
  dl_projectId : string
}.

Record PolarionWorkItem := {
  wi_id : option string;
  wi_title : string;
  wi_type_id : string;
  wi_type : TypeInfo;
  wi_author_id : string;
  wi_author : UserInfo;
  wi_status_id : string;
  wi_status : StatusInfo;
  wi_description : option JsDescription;
  wi_unresolvable : string;
  wi_project_id : string;
  wi_downloadAttachment : AttachmentLoader
}.

(** Cache entries that carry the time of the fetch. *)
Record ItemEntry := { workitem : option PolarionWorkItem; item_time : Z }.
Record StatusEntry := { statuses : gmap string StatusInfo; status_time : Z }.
Record TypeEntry := { types : gmap string TypeInfo; type_time : Z }.
Record UserEntry := { user : UserInfo; user_time : Z }.

(** The axios instance: what [axios.create] was given and
    [defaults.headers.common]. *)
Record HttpClient := {
  baseURL : string;
  timeout : Z;
  headers : gmap string string;
  common : gmap string string
}.

Record Polarion := {
  httpClient : HttpClient;
  polarionUser : string;
  polarionPassword : string;
  polarionUrl : string;
  useTokenAuth : bool;
  polarionToken : option string;
  initialized : bool;
  authHeaders : gmap string string;
  numberOfPopupsToShow : Z;
  lastMessage : option string;
  itemCache : gmap string ItemEntry;
  attachmentCache : gmap string string;
  statusCache : gmap string StatusEntry;
  workitemTypeCache : gmap string TypeEntry;
  iconCache : gmap string string;
  userCache : gmap string UserEntry;
  exceptionCount : Z
}.

(** Assignments to the fields of a session object. *)
Definition set_httpClient (v : HttpClient) (p : Polarion) : Polarion :=
  {|
    httpClient := v; polarionUser := polarionUser p;
    polarionPassword := polarionPassword p; polarionUrl := polarionUrl p;
    useTokenAuth := useTokenAuth p; polarionToken := polarionToken p;
    initialized := initialized p; authHeaders := authHeaders p;
    numberOfPopupsToShow := numberOfPopupsToShow p;
    lastMessage := lastMessage p; itemCache := itemCache p;
    attachmentCache := attachmentCache p; statusCache := statusCache p;
    workitemTypeCache := workitemTypeCache p; iconCache := iconCache p;
    userCache := userCache p; exceptionCount := exceptionCount p
  |}.

Definition set_polarionToken (v : option string) (p : Polarion) : Polarion :=
  {|
    httpClient := httpClient p; polarionUser := polarionUser p;
    polarionPassword := polarionPassword p; polarionUrl := polarionUrl p;
    useTokenAuth := useTokenAuth p; polarionToken := v;
    initialized := initialized p; authHeaders := authHeaders p;
    numberOfPopupsToShow := numberOfPopupsToShow p;
    lastMessage := lastMessage p; itemCache := itemCache p;
    attachmentCache := attachmentCache p; statusCache := statusCache p;
    workitemTypeCache := workitemTypeCache p; iconCache := iconCache p;
    userCache := userCache p; exceptionCount := exceptionCount p
  |}.

Definition set_initialized (v : bool) (p : Polarion) : Polarion :=
  {|
    httpClient := httpClient p; polarionUser := polarionUser p;
    polarionPassword := polarionPassword p; polarionUrl := polarionUrl p;
    useTokenAuth := useTokenAuth p; polarionToken := polarionToken p;
    initialized := v; authHeaders := authHeaders p;
    numberOfPopupsToShow := numberOfPopupsToShow p;
    lastMessage := lastMessage p; itemCache := itemCache p;
    attachmentCache := attachmentCache p; statusCache := statusCache p;
    workitemTypeCache := workitemTypeCache p; iconCache := iconCache p;
    userCache := userCache p; exceptionCount := exceptionCount p
  |}.

Definition set_authHeaders (v : gmap string string) (p : Polarion) : Polarion :=
  {|
    httpClient := httpClient p; polarionUser := polarionUser p;
    polarionPassword := polarionPassword p; polarionUrl := polarionUrl p;
    useTokenAuth := useTokenAuth p; polarionToken := polarionToken p;
    initialized := initialized p; authHeaders := v;
    numberOfPopupsToShow := numberOfPopupsToShow p;
    lastMessage := lastMessage p; itemCache := itemCache p;
    attachmentCache := attachmentCache p; statusCache := statusCache p;
    workitemTypeCache := workitemTypeCache p; iconCache := iconCache p;
    userCache := userCache p; exceptionCount := exceptionCount p
  |}.

Definition set_numberOfPopupsToShow (v : Z) (p : Polarion) : Polarion :=
  {|
    httpClient := httpClient p; polarionUser := polarionUser p;
    polarionPassword := polarionPassword p; polarionUrl := polarionUrl p;
    useTokenAuth := useTokenAuth p; polarionToken := polarionToken p;
    initialized := initialized p; authHeaders := authHeaders p;
    numberOfPopupsToShow := v; lastMessage := lastMessage p;
    itemCache := itemCache p; attachmentCache := attachmentCache p;
    statusCache := statusCache p; workitemTypeCache := workitemTypeCache p;
    iconCache := iconCache p; userCache := userCache p;
    exceptionCount := exceptionCount p
  |}.

Definition set_lastMessage (v : option string) (p : Polarion) : Polarion :=
  {|
    httpClient := httpClient p; polarionUser := polarionUser p;
    polarionPassword := polarionPassword p; polarionUrl := polarionUrl p;
    useTokenAuth := useTokenAuth p; polarionToken := polarionToken p;
    initialized := initialized p; authHeaders := authHeaders p;
    numberOfPopupsToShow := numberOfPopupsToShow p; lastMessage := v;
    itemCache := itemCache p; attachmentCache := attachmentCache p;
    statusCache := statusCache p; workitemTypeCache := workitemTypeCache p;
    iconCache := iconCache p; userCache := userCache p;
    exceptionCount := exceptionCount p
  |}.

Definition set_itemCache (v : gmap string ItemEntry) (p : Polarion) : Polarion :=
  {|
    httpClient := httpClient p; polarionUser := polarionUser p;
    polarionPassword := polarionPassword p; polarionUrl := polarionUrl p;
    useTokenAuth := useTokenAuth p; polarionToken := polarionToken p;
    initialized := initialized p; authHeaders := authHeaders p;
    numberOfPopupsToShow := numberOfPopupsToShow p;
    lastMessage := lastMessage p; itemCache := v;
    attachmentCache := attachmentCache p; statusCache := statusCache p;
    workitemTypeCache := workitemTypeCache p; iconCache := iconCache p;
    userCache := userCache p; exceptionCount := exceptionCount p
  |}.

Definition set_attachmentCache (v : gmap string string) (p : Polarion) : Polarion :=
  {|
    httpClient := httpClient p; polarionUser := polarionUser p;
    polarionPassword := polarionPassword p; polarionUrl := polarionUrl p;
    useTokenAuth := useTokenAuth p; polarionToken := polarionToken p;
    initialized := initialized p; authHeaders := authHeaders p;
    numberOfPopupsToShow := numberOfPopupsToShow p;
    lastMessage := lastMessage p; itemCache := itemCache p;
    attachmentCache := v; statusCache := statusCache p;
    workitemTypeCache := workitemTypeCache p; iconCache := iconCache p;
    userCache := userCache p; exceptionCount := exceptionCount p
  |}.

Definition set_statusCache (v : gmap string StatusEntry) (p : Polarion) : Polarion :=
  {|
    httpClient := httpClient p; polarionUser := polarionUser p;
    polarionPassword := polarionPassword p; polarionUrl := polarionUrl p;
    useTokenAuth := useTokenAuth p; polarionToken := polarionToken p;
    initialized := initialized p; authHeaders := authHeaders p;
    numberOfPopupsToShow := numberOfPopupsToShow p;
    lastMessage := lastMessage p; itemCache := itemCache p;
    attachmentCache := attachmentCache p; statusCache := v;
    workitemTypeCache := workitemTypeCache p; iconCache := iconCache p;
    userCache := userCache p; exceptionCount := exceptionCount p
  |}.

Definition set_workitemTypeCache (v : gmap string TypeEntry) (p : Polarion) : Polarion :=
  {|
    httpClient := httpClient p; polarionUser := polarionUser p;
    polarionPassword := polarionPassword p; polarionUrl := polarionUrl p;
    useTokenAuth := useTokenAuth p; polarionToken := polarionToken p;
    initialized := initialized p; authHeaders := authHeaders p;
    numberOfPopupsToShow := numberOfPopupsToShow p;
    lastMessage := lastMessage p; itemCache := itemCache p;
    attachmentCache := attachmentCache p; statusCache := statusCache p;
    workitemTypeCache := v; iconCache := iconCache p;
    userCache := userCache p; exceptionCount := exceptionCount p
  |}.

Definition set_iconCache (v : gmap string string) (p : Polarion) : Polarion :=
  {|
    httpClient := httpClient p; polarionUser := polarionUser p;
    polarionPassword := polarionPassword p; polarionUrl := polarionUrl p;
    useTokenAuth := useTokenAuth p; polarionToken := polarionToken p;
    initialized := initialized p; authHeaders := authHeaders p;
    numberOfPopupsToShow := numberOfPopupsToShow p;
    lastMessage := lastMessage p; itemCache := itemCache p;
    attachmentCache := attachmentCache p; statusCache := statusCache p;
    workitemTypeCache := workitemTypeCache p; iconCache := v;
    userCache := userCache p; exceptionCount := exceptionCount p
  |}.

Definition set_userCache (v : gmap string UserEntry) (p : Polarion) : Polarion :=
  {|
    httpClient := httpClient p; polarionUser := polarionUser p;
    polarionPassword := polarionPassword p; polarionUrl := polarionUrl p;
    useTokenAuth := useTokenAuth p; polarionToken := polarionToken p;
    initialized := initialized p; authHeaders := authHeaders p;
    numberOfPopupsToShow := numberOfPopupsToShow p;
    lastMessage := lastMessage p; itemCache := itemCache p;
    attachmentCache := attachmentCache p; statusCache := statusCache p;
    workitemTypeCache := workitemTypeCache p; iconCache := iconCache p;
    userCache := v; exceptionCount := exceptionCount p
  |}.

Definition set_exceptionCount (v : Z) (p : Polarion) : Polarion :=
  {|
    httpClient := httpClient p; polarionUser := polarionUser p;
    polarionPassword := polarionPassword p; polarionUrl := polarionUrl p;
    useTokenAuth := useTokenAuth p; polarionToken := polarionToken p;
    initialized := initialized p; authHeaders := authHeaders p;
    numberOfPopupsToShow := numberOfPopupsToShow p;
    lastMessage := lastMessage p; itemCache := itemCache p;
    attachmentCache := attachmentCache p; statusCache := statusCache p;
    workitemTypeCache := workitemTypeCache p; iconCache := iconCache p;
    userCache := userCache p; exceptionCount := v
  |}.

(** ** The world around a session *)

(** A request as the HTTP client sends it: the path, the query
    parameters, the response type when it is not JSON, the headers of
    this request and the [Authorization] header of the client's defaults. *)
Record Request := {
  url : string;
  params : list (string * string);
  responseType : option string;
  req_headers : list (string * string);
  authorization : option string
}.

(** [vscode.window.showInformationMessage] and [showErrorMessage]. *)
Inductive Notification :=
| InformationMessage (msg : string)
| ErrorMessage (msg : string).

(** Everything outside one session object that the code reads or writes:
    the session objects allocated so far, the exported variable
    [polarion], the clock, the requests sent (newest first), the lines of
    the output channel (newest first), the notifications shown, the
    [onPolarionConnectionChanged] events fired, and the sessions whose
    [initialize()] was started without being awaited. *)
Record World := {
  heap : list Polarion;
  polarion : option nat;
  clock : Z;
  requests : list Request;
  outputChannel : list string;
  notifications : list Notification;
  connectionEvents : list bool;
  starting : list nat
}.

Definition set_heap (v : list Polarion) (w : World) : World :=
  {|
    heap := v; polarion := polarion w; clock := clock w;
    requests := requests w; outputChannel := outputChannel w;
    notifications := notifications w; connectionEvents := connectionEvents w;
    starting := starting w
  |}.

Definition set_polarion (v : option nat) (w : World) : World :=
  {|
    heap := heap w; polarion := v; clock := clock w; requests := requests w;
    outputChannel := outputChannel w; notifications := notifications w;
    connectionEvents := connectionEvents w; starting := starting w
  |}.

Definition set_clock (v : Z) (w : World) : World :=
  {|
    heap := heap w; polarion := polarion w; clock := v;
    requests := requests w; outputChannel := outputChannel w;
    notifications := notifications w; connectionEvents := connectionEvents w;
    starting := starting w
  |}.

Definition set_requests (v : list Request) (w : World) : World :=
  {|
    heap := heap w; polarion := polarion w; clock := clock w; requests := v;
    outputChannel := outputChannel w; notifications := notifications w;
    connectionEvents := connectionEvents w; starting := starting w
  |}.

Definition set_outputChannel (v : list string) (w : World) : World :=
  {|
    heap := heap w; polarion := polarion w; clock := clock w;
    requests := requests w; outputChannel := v;
    notifications := notifications w; connectionEvents := connectionEvents w;
    starting := starting w
  |}.

Definition set_notifications (v : list Notification) (w : World) : World :=
  {|
    heap := heap w; polarion := polarion w; clock := clock w;
    requests := requests w; outputChannel := outputChannel w;
    notifications := v; connectionEvents := connectionEvents w;
    starting := starting w
  |}.

Definition set_connectionEvents (v : list bool) (w : World) : World :=
  {|
    heap := heap w; polarion := polarion w; clock := clock w;
    requests := requests w; outputChannel := outputChannel w;
    notifications := notifications w; connectionEvents := v;
    starting := starting w
  |}.

Definition set_starting (v : list nat) (w : World) : World :=
  {|
    heap := heap w; polarion := polarion w; clock := clock w;
    requests := requests w; outputChannel := outputChannel w;
    notifications := notifications w; connectionEvents := connectionEvents w;
    starting := v
  |}.

(** ** Settings and the remote service *)

(** [.vscode/polarion.json], as [utils.getPolarionConfigFromFile] returns it. *)
Record FileConfig := {
  fc_username : option string;
  fc_password : option string;
  fc_token : option string;
  fc_useTokenAuth : option bool
}.

(** [vscode.workspace.getConfiguration('Polarion', null)] and the
    configuration file. *)
Record Settings := {
  Url : option string;
  UseTokenAuth : option bool;
  Username : option string;
  Password : option string;
  Token : option string;
  RefreshTime : option Z;
  ExceptionRestart : option Z;
  configFile : option FileConfig
}.

(** What [httpClient.get] settles to: a response with a 2xx status, or a
    rejection with the error. *)
Inductive Reply (A : Type) :=
| Response (status : Z) (data : A)
| Rejected (e : JsError).
Arguments Response {A} status data.
Arguments Rejected {A} e.

(** A value the code iterates over with [for ... of]. *)
Inductive Iterable (A : Type) :=
| NotIterable
| Array (items : list A).
Arguments NotIterable {A}.
Arguments Array {A} items.

(** The fields of a work item, at the top level of the record or under
    its [attributes]. *)
Record Fields := {
  f_id : option string;
  f_title : option string;
  f_type : option string;
  f_status : option string;
  f_project : option string;
  f_description : option JsDescription
}.

(** One element of [response.data.data] of the work item query. *)
Record WorkItemData := {
  flat : Fields;
  attributes : option Fields;
  rel_project : option string;  (* relationships?.project?.data?.id *)
  rel_author : option string;   (* relationships?.author?.data?.id *)
  author_id : option string     (* author?.id *)
}.

Record EnumOption := {
  o_id : option string;
  o_name : option string;
  o_color : option string;
  o_iconURL : option string
}.

Record UserAttributes := {
  ua_name : option string;
  ua_email : option string;
  ua_initials : option string
}.

(** The remote service.  A reply may depend on the requests sent before
    ([history], newest first); [latency] is the time a request takes. *)
Record Remote := {
  projects_api : list Request -> Reply unit;
  workitems_api :
    list Request -> string -> Reply (option (list (option WorkItemData)));
  status_api :
    list Request -> string -> string ->
    Reply (option (Iterable (option EnumOption)));
  types_api :
    list Request -> string -> Reply (option (Iterable (option EnumOption)));
  users_api : list Request -> string -> Reply (option (option UserAttributes));
  binary_api : list Request -> string -> Reply string;
  latency : list Request -> Z
}.

(** ** The monad of the methods *)

(** A method runs on its session object [self], found at [this] in the
    heap, and on the world. *)
Record St := { this : nat; self : Polarion; world : World }.

Inductive Result (A : Type) :=
| Return (a : A)
| Throw (e : JsError).
Arguments Return {A} a.
Arguments Throw {A} e.

Definition M (A : Type) : Type := St -> Result A * St.

Definition ret {A} (a : A) : M A := fun s => (Return a, s).

Definition throw {A} (e : JsError) : M A := fun s => (Throw e, s).

Definition bind {A B} (m : M A) (k : A -> M B) : M B :=
  fun s =>
    match m s with
    | (Return a, s') => k a s'
    | (Throw e, s') => (Throw e, s')
    end.

(** [try { m } catch (error) { h error }] *)
Definition try_catch {A} (m : M A) (h : JsError -> M A) : M A :=
  fun s =>
    match m s with
    | (Return a, s') => (Return a, s')
    | (Throw e, s') => h e s'
    end.

Notation "x <- m ;; k" := (bind m (fun x => k))
  (at level 100, m at next level, right associativity).
Notation "m ;; k" := (bind m (fun _ => k))
  (at level 100, right associativity).

Definition get_self : M Polarion := fun s => (Return (self s), s).

Definition get_this : M nat := fun s => (Return (this s), s).

(** An assignment to fields of [this]. *)
Definition update (f : Polarion -> Polarion) : M unit :=
  fun s => (Return tt, {| this := this s; self := f (self s); world := world s |}).

Definition update_world (f : World -> World) : M unit :=
  fun s => (Return tt, {| this := this s; self := self s; world := f (world s) |}).

(** [new Date().valueOf()] *)
Definition now : M Z := fun s => (Return (clock (world s)), s).

(** [when c m]: [if (c) { m }] *)
Definition when (c : bool) (m : M unit) : M unit := if c then m else ret tt.

(** ** The class [Polarion] *)

Section Session.

Context (cfg : Settings) (remote : Remote).

(** [await this.httpClient.get(path, {params, responseType, headers})]:
    the request is recorded, time passes, and the reply of the remote
    side is returned or thrown. *)
Definition http_get {A} (path : string) (ps : list (string * string))
    (rt : option string) (hs : list (string * string))
    (api : list Request -> Reply A) : M (Z * A) :=
  fun s =>
    let w := world s in
    let history := requests w in
    let req :=
      {| url := path; params := ps; responseType := rt; req_headers := hs;
         authorization := common (httpClient (self s)) !! "Authorization" |} in
    let w' :=
      set_clock (clock w + latency remote history)
        (set_requests (req :: history) w) in
    let s' := {| this := this s; self := self s; world := w' |} in
    match api history with
    | Response status data => (Return (status, data), s')
    | Rejected e => (Throw e, s')
    end.

Definition show (level : LogLevel) (msg : string) : Notification :=
  match level with
  | info => InformationMessage msg
  | error => ErrorMessage msg
  end.

Definition report (msg : string) (level : LogLevel) (popup : bool) : M unit :=
  update_world (fun w => set_outputChannel (msg :: outputChannel w) w) ;;
  p <- get_self ;;
  when (popup && (0 <? numberOfPopupsToShow p))
    (update (fun p =>
       set_lastMessage (Some msg)
         (set_numberOfPopupsToShow (numberOfPopupsToShow p - 1) p)) ;;
     update_world (fun w =>
       set_notifications (show level msg :: notifications w) w)).

(** [onPolarionConnectionChanged.fire(b)] *)
Definition fire (b : bool) : M unit :=
  update_world (fun w => set_connectionEvents (b :: connectionEvents w) w).

(** [t && t.trim() !== ''] *)
Definition token_present (t : option string) : bool :=
  match t with
  | Some tok => negb (String.eqb tok "") && negb (String.eqb (Js.trim tok) "")
  | None => false
  end.

Definition retrieveTokenFromSettings : M unit :=
  try_catch
    (let token := Token cfg in
     update (set_polarionToken (if Js.truthy token then token else None)) ;;
     p <- get_self ;;
     if token_present (polarionToken p) then
       report "Token retrieved successfully from VS Code settings" info false
     else
       report "No token found in VS Code settings (Polarion.Token)" error true)
    (fun e =>
       report ("Failed to retrieve token from VS Code settings: "
               +:+ error_to_string e) error true).

Definition set_common (v : gmap string string) (c : HttpClient) : HttpClient :=
  {| baseURL := baseURL c; timeout := timeout c; headers := headers c;
     common := v |}.

Definition setupAuthentication : M unit :=
  p <- get_self ;;
  (if useTokenAuth p && token_present (polarionToken p) then
     update (set_authHeaders
       {[ "Authorization" := "Bearer " +:+ default "" (polarionToken p) ]}) ;;
     report "Using token authentication" info false
   else if negb (useTokenAuth p)
           && negb (String.eqb (polarionUser p) "")
           && negb (String.eqb (polarionPassword p) "") then
     let credentials :=
       Js.base64 (polarionUser p +:+ ":" +:+ polarionPassword p) in
     update (set_authHeaders {[ "Authorization" := "Basic " +:+ credentials ]}) ;;
     report "Using basic authentication" info false
   else
     throw (Error "No valid authentication method configured")) ;;
  update (fun p =>
    set_httpClient
      (set_common (authHeaders p ∪ common (httpClient p)) (httpClient p)) p).

Definition testConnection : M unit :=
  try_catch
    (response <- http_get "/polarion/rest/v1/projects" [] None []
                   (projects_api remote) ;;
     when (fst response =? 200)
       (report "REST API connection test successful" info false))
    (fun e =>
       if status_is e 401 then
         throw (Error "Authentication failed - check your credentials")
       else if status_is e 403 then
         throw (Error "Access forbidden - check your permissions")
       else
         throw (Error ("Connection test failed: " +:+ err_message e))).

Definition initialize : M unit :=
  try_catch
    (p <- get_self ;;
     when (useTokenAuth p) retrieveTokenFromSettings ;;
     setupAuthentication ;;
     testConnection ;;
     update (set_initialized true) ;;
     report "Polarion REST API connection established" info true ;;
     fire true)
    (fun e =>
       report ("Failed to initialize Polarion REST API: " +:+ error_to_string e)
         error true ;;
       update (set_initialized false) ;;
       fire false).

(** [new Polarion(url, username, password, useTokenAuth, outputChannel)]:
    the object, and the world after the three lines the constructor
    reports.  The new object will live at the end of the heap. *)
Definition Polarion_new (url username password : string) (tokenAuth : bool)
    (w : World) : Polarion * World :=
  let p :=
    {| httpClient :=
         {| baseURL := url; timeout := 30000;
            headers := {[ "Content-Type" := "application/json";
                          "Accept" := "application/json" ]};
            common := ∅ |};
       polarionUser := username; polarionPassword := password;
       polarionUrl := url; useTokenAuth := tokenAuth; polarionToken := None;
       initialized := false; authHeaders := ∅; numberOfPopupsToShow := 2;
       lastMessage := None; itemCache := ∅; attachmentCache := ∅;
       statusCache := ∅; workitemTypeCache := ∅; iconCache := ∅;
       userCache := ∅; exceptionCount := 0 |} in
  let body : M unit :=
    report "Polarion service started" info false ;;
    report ("With url: " +:+ url) info false ;;
    if tokenAuth then
      report "Using token authentication from VS Code settings" info false
    else
      report ("With user: " +:+ username) info false in
  let s := snd (body {| this := length (heap w); self := p; world := w |}) in
  (self s, world s).

(** [createPolarion(outputChannel)] up to the call of [initialize()]: the
    settings are read, the session object is made and assigned to the
    exported variable, and [initialize()] is started on it.  What
    [initialize()] does happens after the caller has gone on; the new
    session is listed in [starting] until then. *)
Definition createPolarion (w : World) : World :=
  let polarionUrl := Url cfg in
  let tokenAuth := default true (UseTokenAuth cfg) in
  let '(polarionUsername, polarionPassword, tokenAuth) :=
    match configFile cfg with
    | Some fileConfig =>
        (fc_username fileConfig, fc_password fileConfig,
         default tokenAuth (fc_useTokenAuth fileConfig))
    | None => (Username cfg, Password cfg, tokenAuth)
    end in
  if Js.truthy polarionUrl then
    if tokenAuth || (Js.truthy polarionUsername && Js.truthy polarionPassword)
    then
      let '(newPolarion, w1) :=
        Polarion_new (default "" polarionUrl) (Js.or_else polarionUsername "")
          (Js.or_else polarionPassword "") tokenAuth w in
      let ref := length (heap w1) in
      set_starting (ref :: starting w1)
        (set_polarion (Some ref) (set_heap (heap w1 ++ [newPolarion]) w1))
    else
      set_outputChannel
        ("Error: Username and password must be configured when token authentication is disabled"
         :: outputChannel w) w
  else
    set_outputChannel ("Error: URL must be configured" :: outputChannel w) w.

(** *** Caches and refresh *)

(** The refresh test shared by the item, status, type and user caches:
    [minutes && delta > minutes * 60 * 1000] with
    [delta = Math.abs(current - time)] and [minutes] the setting
    [RefreshTime]. *)
Definition expired (current time : Z) : bool :=
  let delta := Z.abs (current - time) in
  match RefreshTime cfg with
  | Some minutes => negb (minutes =? 0) && (minutes * 60 * 1000 <? delta)
  | None => false
  end.

Definition mime_of (iconURL : string) : string :=
  let extension := Js.toLowerCase (Js.split_dot_pop iconURL) in
  if String.eqb extension "gif" then "image/gif"
  else if String.eqb extension "jpg" || String.eqb extension "jpeg"
  then "image/jpeg"
  else if String.eqb extension "svg" then "image/svg+xml"
  else "image/png".

Definition downloadStatusIcon (iconURL : string) : M (option string) :=
  try_catch
    (p <- get_self ;;
     match iconCache p !! iconURL with
     | Some dataUri => ret (Some dataUri)
     | None =>
         response <- http_get iconURL [] (Some "arraybuffer")
                       [("Accept", "image/*")]
                       (fun history => binary_api remote history iconURL) ;;
         if fst response =? 200 then
           let base64Data := Js.base64 (snd response) in
           let dataUri :=
             "data:" +:+ mime_of iconURL +:+ ";base64," +:+ base64Data in
           update (fun p => set_iconCache (<[iconURL := dataUri]> (iconCache p)) p) ;;
           ret (Some dataUri)
         else ret None
     end)
    (fun e =>
       report ("Error downloading status icon from " +:+ iconURL +:+ ": "
               +:+ error_to_string e) info false ;;
       ret None).

Definition downloadWorkitemTypeIcon (iconURL : string) : M (option string) :=
  downloadStatusIcon iconURL.

(** The icon of one option: [undefined] unless the option has an
    [iconURL] and the download gives a non-empty result. *)
Definition option_icon (what : string) (download : string -> M (option string))
    (o : EnumOption) : M (option string) :=
  if Js.truthy (o_iconURL o) then
    try_catch
      (iconPath <- download (default "" (o_iconURL o)) ;;
       ret (if Js.truthy iconPath then iconPath else None))
      (fun e =>
         report ("Failed to download icon for " +:+ what +:+ " "
                 +:+ default "" (o_id o) +:+ ": " +:+ error_to_string e)
           info false ;;
         ret None)
  else ret None.

(** The loop [for (const option of statusOptions)]; reading a property
    of a [null] element throws. *)
Fixpoint status_options (options : list (option EnumOption))
    (statusMap : gmap string StatusInfo) : M (gmap string StatusInfo) :=
  match options with
  | [] => ret statusMap
  | None :: _ =>
      throw (TypeError "Cannot read properties of null (reading 'id')")
  | Some o :: rest =>
      if Js.truthy (o_id o) && Js.truthy (o_name o) then
        iconPath <- option_icon "status" downloadStatusIcon o ;;
        let statusInfo :=
          {| st_name := default "" (o_name o);
             st_color := Some (Js.or_else (o_color o) "#000000");
             st_iconPath := iconPath |} in
        status_options rest (<[default "" (o_id o) := statusInfo]> statusMap)
      else status_options rest statusMap
  end.

Definition status_url (projectId : string) : string :=
  "/polarion/rest/v1/projects/" +:+ projectId
  +:+ "/workitems/fields/status/actions/getAvailableOptions".

Definition fetchStatusMappingsFromPolarion (projectId workitemType : string)
    : M unit :=
  let cacheKey := projectId +:+ ":" +:+ workitemType in
  try_catch
    (report ("Fetching status mappings for project " +:+ projectId
             +:+ ", type " +:+ workitemType +:+ " via REST API") info false ;;
     response <- http_get (status_url projectId) [("type", workitemType)]
                   None []
                   (fun history =>
                      status_api remote history projectId workitemType) ;;
     match (if fst response =? 200 then snd response else None) with
     | Some statusOptions =>
         statusMap <-
           match statusOptions with
           | Array items => status_options items ∅
           | NotIterable => throw (TypeError "statusOptions is not iterable")
           end ;;
         current <- now ;;
         update (fun p =>
           set_statusCache
             (<[cacheKey := {| statuses := statusMap; status_time := current |}]>
                (statusCache p)) p) ;;
         report ("Fetched " +:+ pretty (size statusMap)
                 +:+ " status mappings for project " +:+ projectId
                 +:+ ", type " +:+ workitemType) info false
     | None =>
         report ("No status options data found for project " +:+ projectId
                 +:+ ", type " +:+ workitemType) info false
     end)
    (fun e =>
       report ("Failed to fetch status mappings for project " +:+ projectId
               +:+ ", type " +:+ workitemType +:+ ": " +:+ err_message e)
         error false ;;
       current <- now ;;
       update (fun p =>
         set_statusCache
           (<[cacheKey := {| statuses := ∅; status_time := current |}]>
              (statusCache p)) p)).

Definition getStatusMappings (projectId workitemType : string)
    : M (gmap string StatusInfo) :=
  p <- get_self ;;
  if negb (initialized p) then ret ∅
  else
    let cacheKey := projectId +:+ ":" +:+ workitemType in
    fetchStatuses <-
      match statusCache p !! cacheKey with
      | None => ret true
      | Some cachedData =>
          current <- now ;;
          ret (expired current (status_time cachedData))
      end ;;
    when fetchStatuses (fetchStatusMappingsFromPolarion projectId workitemType) ;;
    p <- get_self ;;
    ret (match statusCache p !! cacheKey with
         | Some cachedData => statuses cachedData
         | None => ∅
         end).

Definition getStatusDisplayInfo (statusId projectId workitemType : string)
    : M StatusInfo :=
  statusMap <- getStatusMappings projectId workitemType ;;
  match statusMap !! statusId with
  | Some statusInfo => ret statusInfo
  | None =>
      ret {| st_name := statusId; st_color := None; st_iconPath := None |}
  end.

(** The loop [for (const option of typeOptions)]. *)
Fixpoint type_options (options : list (option EnumOption))
    (typeMap : gmap string TypeInfo) : M (gmap string TypeInfo) :=
  match options with
  | [] => ret typeMap
  | None :: _ =>
      throw (TypeError "Cannot read properties of null (reading 'id')")
  | Some o :: rest =>
      if Js.truthy (o_id o) && Js.truthy (o_name o) then
        iconPath <- option_icon "workitem type" downloadWorkitemTypeIcon o ;;
        let typeInfo :=
          {| ty_name := default "" (o_name o); ty_iconPath := iconPath |} in
        type_options rest (<[default "" (o_id o) := typeInfo]> typeMap)
      else type_options rest typeMap
  end.

Definition types_url (projectId : string) : string :=
  "/polarion/rest/v1/projects/" +:+ projectId
  +:+ "/enumerations/~/workitem-type/~".

Definition fetchWorkitemTypeMappingsFromPolarion (projectId : string) : M unit :=
  try_catch
    (report ("Fetching workitem type mappings for project " +:+ projectId
             +:+ " via REST API") info false ;;
     response <- http_get (types_url projectId) [] None []
                   (fun history => types_api remote history projectId) ;;
     match (if fst response =? 200 then snd response else None) with
     | Some typeOptions =>
         typeMap <-
           match typeOptions with
           | Array items => type_options items ∅
           | NotIterable => throw (TypeError "typeOptions is not iterable")
           end ;;
         current <- now ;;
         update (fun p =>
           set_workitemTypeCache
             (<[projectId := {| types := typeMap; type_time := current |}]>
                (workitemTypeCache p)) p) ;;
         report ("Fetched " +:+ pretty (size typeMap)
                 +:+ " workitem type mappings for project " +:+ projectId)
           info false
     | None =>
         report ("No workitem type options data found for project "
                 +:+ projectId) info false
     end)
    (fun e =>
       report ("Failed to fetch workitem type mappings for project "
               +:+ projectId +:+ ": " +:+ err_message e) error false ;;
       current <- now ;;
       update (fun p =>
         set_workitemTypeCache
           (<[projectId := {| types := ∅; type_time := current |}]>
              (workitemTypeCache p)) p)).

Definition getWorkitemTypeMappings (projectId : string)
    : M (gmap string TypeInfo) :=
  p <- get_self ;;
  if negb (initialized p) then ret ∅
  else
    fetchTypes <-
      match workitemTypeCache p !! projectId with
      | None => ret true
      | Some cachedData =>
          current <- now ;;
          ret (expired current (type_time cachedData))
      end ;;
    when fetchTypes (fetchWorkitemTypeMappingsFromPolarion projectId) ;;
    p <- get_self ;;
    ret (match workitemTypeCache p !! projectId with
         | Some cachedData => types cachedData
         | None => ∅
         end).

Definition getWorkitemTypeDisplayInfo (typeId projectId : string) : M TypeInfo :=
  typeMap <- getWorkitemTypeMappings projectId ;;
  match typeMap !! typeId with
  | Some typeInfo => ret typeInfo
  | None => ret {| ty_name := typeId; ty_iconPath := None |}
  end.

(** [{ name: userId }] *)
Definition name_only (userId : string) : UserInfo :=
  {| us_name := userId; us_email := None; us_initials := None |}.

Definition store_user (userId : string) (info : UserInfo) : M unit :=
  current <- now ;;
  update (fun p =>
    set_userCache
      (<[userId := {| user := info; user_time := current |}]> (userCache p)) p).

Definition fetchUserFromPolarion (userId : string) : M unit :=
  try_catch
    (report ("Fetching user info for " +:+ userId +:+ " via REST API")
       info false ;;
     response <- http_get ("/polarion/rest/v1/users/" +:+ userId)
                   [("fields[users]", "id,name,email,initials")] None []
                   (fun history => users_api remote history userId) ;;
     match (if fst response =? 200 then snd response else None) with
     | Some userData =>
         let userInfo :=
           match userData with
           | Some attributes =>
               {| us_name := Js.or_else (ua_name attributes) userId;
                  us_email := ua_email attributes;
                  us_initials := ua_initials attributes |}
           | None => name_only userId
           end in
         store_user userId userInfo ;;
         report ("Fetched user info for " +:+ userId +:+ ": "
                 +:+ us_name userInfo) info false
     | None =>
         report ("No user data found for " +:+ userId) info false ;;
         store_user userId (name_only userId)
     end)
    (fun e =>
       report ("Failed to fetch user info for " +:+ userId +:+ ": "
               +:+ err_message e) error false ;;
       store_user userId (name_only userId)).

Definition getUserInfo (userId : string) : M UserInfo :=
  p <- get_self ;;
  if negb (initialized p) then ret (name_only userId)
  else
    fetchUser <-
      match userCache p !! userId with
      | None => ret true
      | Some cachedData =>
          current <- now ;;
          ret (expired current (user_time cachedData))
      end ;;
    when fetchUser (fetchUserFromPolarion userId) ;;
    p <- get_self ;;
    ret (match userCache p !! userId with
         | Some cachedData => user cachedData
         | None => name_only userId
         end).

Definition getUserDisplayInfo (userId : string) : M UserInfo :=
  getUserInfo userId.

Definition attachment_url (projectId workitemId attachmentId : string) : string :=
  "/polarion/rest/v1/projects/" +:+ projectId +:+ "/workitems/" +:+ workitemId
  +:+ "/attachments/" +:+ attachmentId +:+ "/content".

Definition downloadWorkitemAttachmentForProject
    (workitemId attachmentId projectId : string) : M (option string) :=
  try_catch
    (let cacheKey := workitemId +:+ ":" +:+ attachmentId in
     p <- get_self ;;
     match attachmentCache p !! cacheKey with
     | Some base64Data =>
         ret (if String.eqb base64Data "" then None else Some base64Data)
     | None =>
         report ("Downloading attachment " +:+ attachmentId +:+ " for workitem "
                 +:+ workitemId) info false ;;
         response <- http_get (attachment_url projectId workitemId attachmentId)
                       [] (Some "arraybuffer") [("Accept", "*/*")]
                       (fun history =>
                          binary_api remote history
                            (attachment_url projectId workitemId attachmentId)) ;;
         if fst response =? 200 then
           let base64Data := Js.base64 (snd response) in
           update (fun p =>
             set_attachmentCache
               (<[cacheKey := base64Data]> (attachmentCache p)) p) ;;
           ret (Some base64Data)
         else ret None
     end)
    (fun e =>
       report ("Failed to download attachment " +:+ attachmentId
               +:+ " for workitem " +:+ workitemId +:+ ": " +:+ err_message e)
         error false ;;
       ret None).

(** *** Work items *)

Definition item_url : string := "/polarion/rest/v1/all/workitems".

Definition item_params (itemId : string) : list (string * string) :=
  [("query", "id:" +:+ itemId);
   ("fields[workitems]", "id,title,type,author,status,description,project")].

(** [workItem.attributes?.title || workItem.title || 'No title'] *)
Definition found_title (workItem : WorkItemData) : string :=
  Js.or_else
    (Js.or_opt (attributes workItem ≫= f_title) (f_title (flat workItem)))
    "No title".

(** The restart policy, in the [catch] of [getWorkItemFromPolarion]. *)
Definition count_exception : M unit :=
  let exceptionLimit := ExceptionRestart cfg in
  when (truthy_num exceptionLimit)
    (p <- get_self ;;
     if (default 0 exceptionLimit <? exceptionCount p)
        && (0 <? default 0 exceptionLimit) then
       report ("getWorkItem: Restarting Polarion after "
               +:+ pretty (exceptionCount p) +:+ " exceptions") error false ;;
       update_world createPolarion
     else
       update (fun p => set_exceptionCount (exceptionCount p + 1) p)).

Definition getWorkItemFromPolarion (itemId : string)
    : M (option PolarionWorkItem) :=
  p <- get_self ;;
  if negb (initialized p) then ret None
  else
    try_catch
      (report ("Fetching work item " +:+ itemId +:+ " via REST API") info false ;;
       response <- http_get item_url (item_params itemId) None []
                     (fun history => workitems_api remote history itemId) ;;
       match (if fst response =? 200 then snd response else None) with
       | Some (first :: _) =>
           match first with
           | None =>
               throw (TypeError
                 "Cannot read properties of null (reading 'attributes')")
           | Some workItem =>
               report ("getWorkItem: Found workitem " +:+ itemId +:+ " "
                       +:+ found_title workItem) info false ;;
               let attributes := default (flat workItem) (attributes workItem) in
               let projectId :=
                 Js.or_else
                   (Js.or_opt (rel_project workItem) (f_project attributes))
                   "unknown" in
               let statusId :=
                 Js.or_else
                   (Js.or_opt (f_status attributes) (f_status (flat workItem)))
                   "unknown" in
               let workitemType :=
                 Js.or_else
                   (Js.or_opt (f_type attributes) (f_type (flat workItem)))
                   "unknown" in
               statusInfo <- getStatusDisplayInfo statusId projectId workitemType ;;
               typeInfo <- getWorkitemTypeDisplayInfo workitemType projectId ;;
               let authorId :=
                 Js.or_else
                   (Js.or_opt (rel_author workItem) (author_id workItem))
                   "unknown" in
               authorInfo <- getUserDisplayInfo authorId ;;
               session <- get_this ;;
               ret (Some
                 {| wi_id := Js.or_opt (f_id (flat workItem)) (f_id attributes);
                    wi_title := Js.or_else (f_title attributes) "No title";
                    wi_type_id := workitemType;
                    wi_type := typeInfo;
                    wi_author_id := authorId;
                    wi_author := authorInfo;
                    wi_status_id := statusId;
                    wi_status := statusInfo;
                    wi_description :=
                      if description_truthy (f_description attributes) then
                        description_content <$> f_description attributes
                      else if description_truthy (f_description (flat workItem))
                      then description_content <$> f_description (flat workItem)
                      else None;
                    wi_unresolvable := "false";
                    wi_project_id := projectId;
                    wi_downloadAttachment :=
                      {| dl_session := session; dl_itemId := itemId;
                         dl_projectId := projectId |} |})
           end
       | _ =>
           report ("getWorkItem: Could not find workitem " +:+ itemId)
             info false ;;
           ret None
       end)
      (fun e =>
         (if status_is e 404 then
            report ("getWorkItem: Work item " +:+ itemId +:+ " not found")
              info false
          else if status_is e 401 || status_is e 403 then
            report ("getWorkItem: Authentication/authorization error for "
                    +:+ itemId) error false
          else
            report ("getWorkItem: Could not fetch " +:+ itemId
                    +:+ " with exception: " +:+ err_message e) error false ;;
            count_exception) ;;
         ret None).

Definition getWorkItem (workItem : string) : M (option PolarionWorkItem) :=
  p <- get_self ;;
  fetchItem <-
    (if initialized p then
       match itemCache p !! workItem with
       | None => ret true
       | Some item =>
           current <- now ;;
           ret (expired current (item_time item))
       end
     else ret false) ;;
  when fetchItem
    (item <- getWorkItemFromPolarion workItem ;;
     current <- now ;;
     update (fun p =>
       set_itemCache
         (<[workItem := {| workitem := item; item_time := current |}]>
            (itemCache p)) p)) ;;
  p <- get_self ;;
  ret (match itemCache p !! workItem with
       | Some item => workitem item
       | None => None
       end).

Definition getTitleFromWorkItem (itemId : string) : M (option string) :=
  workItem <- getWorkItem itemId ;;
  ret (wi_title <$> workItem).

Definition getUrlFromWorkItem (itemId : string) : M (option string) :=
  workItem <- getWorkItem itemId ;;
  match workItem with
  | None => ret None
  | Some workItem =>
      p <- get_self ;;
      let baseUrl := polarionUrl p in
      let baseUrl :=
        if negb (Js.endsWith baseUrl "/") then baseUrl +:+ "/" else baseUrl in
      let baseUrl :=
        if Js.endsWith baseUrl "/polarion/" then Js.slice0 baseUrl (-10)
        else baseUrl in
      ret (Some (baseUrl +:+ "polarion/#/project/" +:+ wi_project_id workItem
                 +:+ "/workitem?id=" +:+ itemId))
  end.

Definition clearCache : M unit :=
  update (fun p =>
    set_userCache ∅ (set_iconCache ∅ (set_workitemTypeCache ∅
      (set_statusCache ∅ (set_attachmentCache ∅ (set_itemCache ∅ p)))))) ;;
  update_world (fun w =>
    set_notifications
      (InformationMessage
         "Cleared polarion work item, attachment, status, workitem type, icon, and user cache"
       :: notifications w) w).

End Session.

(** ** Calls from outside the class *)

(** [ref.method(...)]: the method runs on the object at [ref]; what it
    assigned to the fields of [this] is in the heap afterwards.  There is
    no result when [ref] is not an object of the heap. *)
Definition call {A} (ref : nat) (m : M A) (w : World)
    : option (Result A * World) :=
  match heap w !! ref with
  | Some p =>
      let '(r, s) := m {| this := ref; self := p; world := w |} in
      Some (r, set_heap (<[ref := self s]> (heap (world s))) (world s))
  | None => None
  end.

(** [pol.polarion.method(...)], on the exported variable. *)
Definition call_polarion {A} (m : M A) (w : World)
    : option (Result A * World) :=
  match polarion w with
  | Some ref => call ref m w
  | None => None
  end.

(** The body of an [initialize()] that [createPolarion] started, run to
    its end.  The decoration of the visible editors that follows it in
    [createPolarion] belongs to the editor and is not part of the model. *)
Definition resume (cfg : Settings) (remote : Remote) (ref : nat) (w : World)
    : option World :=
  if bool_decide (ref ∈ starting w) then
    match call ref (initialize cfg remote) w with
    | Some (_, w') =>
        Some (set_starting (filter (fun r => r ≠ ref) (starting w')) w')
    | None => None
    end
  else None.

(** [workItem.downloadAttachment(attachmentId)] *)
Definition downloadAttachment (remote : Remote) (workItem : PolarionWorkItem)
    (attachmentId : string) (w : World) : option (Result (option string) * World) :=
  let loader := wi_downloadAttachment workItem in
  call (dl_session loader)
    (downloadWorkitemAttachmentForProject remote (dl_itemId loader) attachmentId
       (dl_projectId loader)) w.

(** ** Observations on runs *)

(** The request [getWorkItemFromPolarion] sends for [itemId]. *)
Definition item_request (itemId : string) (r : Request) : Prop :=
  url r = item_url /\ params r = item_params itemId.

#[global] Instance item_request_dec itemId r : Decision (item_request itemId r).
Proof. unfold item_request. apply _. Defined.

(** How many times the work item [itemId] was asked of the remote side. *)
Definition item_fetches (itemId : string) (w : World) : nat :=
  length (filter (item_request itemId) (requests w)).

(** [m] always returns: it never throws. *)
Definition returns {A} (m : M A) : Prop :=
  forall s, exists a s', m s = (Return a, s').

(** [m] only adds requests to the history, and every request it adds
    satisfies [P]. *)
Definition sends {A} (P : Request -> Prop) (m : M A) : Prop :=
  forall s, exists extra,
    requests (world (snd (m s))) = extra ++ requests (world s)
    /\ Forall P extra.

(** [m] leaves the part [f] of the session object as it is. *)
Definition keeps {A X} (f : Polarion -> X) (m : M A) : Prop :=
  forall s, f (self (snd (m s))) = f (self s).

(** Any request at all. *)
Definition any_request (r : Request) : Prop := True.

(** A request that is not the work item query for [itemId]. *)
Definition other_than (itemId : string) (r : Request) : Prop :=
  params r <> item_params itemId.


(** [getWorkItem] has to fetch: the item cache has no entry for the id,
    or the entry has expired. *)
Definition needs_fetch (cfg : Settings) (workItem : string) (s : St) : Prop :=
  match itemCache (self s) !! workItem with
  | Some item => expired cfg (clock (world s)) (item_time item) = true
  | None => True
  end.

(** The same session and world at another time. *)
Definition at_time (t : Z) (s : St) : St :=
  {| this := this s; self := self s; world := set_clock t (world s) |}.

(** An entry stored at [time] is stale at [current]: a refresh time is
    set, it is not zero, and more than that many minutes have gone by. *)
Definition stale (cfg : Settings) (current time : Z) : Prop :=
  exists minutes,
    RefreshTime cfg = Some minutes /\ minutes <> 0
    /\ minutes * 60 * 1000 < Z.abs (current - time).

(** The requests of the four fetches, with the [Authorization] header
    [auth] of the client. *)
Definition item_query (itemId : string) (auth : option string) : Request :=
  {| url := item_url; params := item_params itemId; responseType := None;
     req_headers := []; authorization := auth |}.

Definition status_query (projectId workitemType : string)
    (auth : option string) : Request :=
  {| url := status_url projectId; params := [("type", workitemType)];
     responseType := None; req_headers := []; authorization := auth |}.

Definition types_query (projectId : string) (auth : option string) : Request :=
  {| url := types_url projectId; params := []; responseType := None;
     req_headers := []; authorization := auth |}.

Definition user_query (userId : string) (auth : option string) : Request :=
  {| url := "/polarion/rest/v1/users/" +:+ userId;
     params := [("fields[users]", "id,name,email,initials")];
     responseType := None; req_headers := []; authorization := auth |}.


(** ** The restart policy, observed *)

(** An error that is neither a 404 nor a 401 or 403. *)
Definition transport_failure (e : JsError) : Prop :=
  status_is e 404 = false /\ status_is e 401 = false /\ status_is e 403 = false.


(** One fetch after the other, for each id of the list. *)
Fixpoint fetch_each (cfg : Settings) (remote : Remote) (ids : list string)
    : M unit :=
  match ids with
  | [] => ret tt
  | itemId :: rest =>
      getWorkItemFromPolarion cfg remote itemId ;; fetch_each cfg remote rest
  end.

(** The settings [createPolarion] makes a session from: a URL, and token
    authentication or a user and a password. *)
Definition configured (cfg : Settings) : bool :=
  let tokenAuth := default true (UseTokenAuth cfg) in
  Js.truthy (Url cfg)
  && match configFile cfg with
     | Some fileConfig =>
         default tokenAuth (fc_useTokenAuth fileConfig)
         || (Js.truthy (fc_username fileConfig)
             && Js.truthy (fc_password fileConfig))
     | None =>
         tokenAuth || (Js.truthy (Username cfg) && Js.truthy (Password cfg))
     end.

(** A session as the constructor leaves it: empty caches, no exception
    counted, not initialized. *)
Definition fresh_session (p : Polarion) : Prop :=
  itemCache p = ∅ /\ attachmentCache p = ∅ /\ statusCache p = ∅
  /\ workitemTypeCache p = ∅ /\ iconCache p = ∅ /\ userCache p = ∅
  /\ exceptionCount p = 0 /\ initialized p = false.

(** [w'] has the sessions, the exported variable and the pending
    initializations of [w]: no session was created in between. *)
Definition same_sessions (w w' : World) : Prop :=
  heap w' = heap w /\ polarion w' = polarion w /\ starting w' = starting w.

(** ** The life of a session object *)

(** The methods the rest of the extension calls on a session. *)
Inductive Method :=
| GetWorkItem (workItem : string)
| GetTitleFromWorkItem (itemId : string)
| GetUrlFromWorkItem (itemId : string)
| DownloadAttachment (workitemId attachmentId projectId : string)
| ClearCache.

Definition invoke (cfg : Settings) (remote : Remote) (m : Method) : M unit :=
  match m with
  | GetWorkItem workItem => getWorkItem cfg remote workItem ;; ret tt
  | GetTitleFromWorkItem itemId => getTitleFromWorkItem cfg remote itemId ;; ret tt
  | GetUrlFromWorkItem itemId => getUrlFromWorkItem cfg remote itemId ;; ret tt
  | DownloadAttachment workitemId attachmentId projectId =>
      downloadWorkitemAttachmentForProject remote workitemId attachmentId
        projectId ;; ret tt
  | ClearCache => clearCache
  end.

(** The states a session object goes through in the extension: it is
    made by [createPolarion], which runs [initialize()] on it once; before
    and after that its methods may be called, and between the calls
    anything may happen to the world around it.  The flag tells whether
    [initialize()] has run. *)
Inductive lifetime (cfg : Settings) (remote : Remote) : bool -> St -> Prop :=
| lifetime_new url username password tokenAuth w w' :
    lifetime cfg remote false
      {| this := length (heap w);
         self := fst (Polarion_new url username password tokenAuth w);
         world := w' |}
| lifetime_initialize s :
    lifetime cfg remote false s ->
    lifetime cfg remote true (snd (initialize cfg remote s))
| lifetime_called b m s :
    lifetime cfg remote b s ->
    lifetime cfg remote b (snd (invoke cfg remote m s))
| lifetime_elsewhere b s w' :
    lifetime cfg remote b s ->
    lifetime cfg remote b {| this := this s; self := self s; world := w' |}.

(** ** A concrete installation, for the examples *)

Module Demo.

Definition settings : Settings :=
  {| Url := Some "http://polarion2020.example.com/polarion";
     UseTokenAuth := Some false;
     Username := Some "user"; Password := Some "pass"; Token := Some "tok";
     RefreshTime := Some 5; ExceptionRestart := Some 1; configFile := None |}.

Definition server_error : JsError :=
  {| err_name := "AxiosError";
     err_message := "Request failed with status code 500";
     err_status := Some 500 |}.

Definition abc1 : WorkItemData :=
  {| flat :=
       {| f_id := Some "ABC-1"; f_title := Some "Fix bug";
          f_type := Some "task"; f_status := Some "open";
          f_project := Some "P"; f_description := None |};
     attributes := None; rel_project := None; rel_author := None;
     author_id := Some "u1" |}.

Definition status_list : list (option EnumOption) :=
  [Some {| o_id := Some "open"; o_name := Some "Open";
           o_color := Some "#00FF00"; o_iconURL := Some "/icons/open.gif" |};
   Some {| o_id := Some "closed"; o_name := Some "Closed";
           o_color := None; o_iconURL := None |};
   Some {| o_id := Some "draft"; o_name := None;
           o_color := Some "#FF0000"; o_iconURL := None |}].

(** A service that knows the item [ABC-1] and fails with status 500 on
    any other. *)
Definition service : Remote :=
  {| projects_api := fun _ => Response 200 tt;
     workitems_api := fun _ itemId =>
       if String.eqb itemId "ABC-1" then Response 200 (Some [Some abc1])
       else Rejected server_error;
     status_api := fun _ _ _ => Response 200 (Some (Array status_list));
     types_api := fun _ _ => Rejected server_error;
     users_api := fun _ _ =>
       Response 200
         (Some (Some {| ua_name := Some "Ann"; ua_email := None;
                        ua_initials := None |}));
     binary_api := fun _ _ => Response 200 "abc";
     latency := fun _ => 7 |}.

Definition boot : World :=
  {| heap := []; polarion := None; clock := 1000; requests := [];
     outputChannel := []; notifications := []; connectionEvents := [];
     starting := [] |}.

(** The world after [createPolarion], before [initialize()] has run. *)
Definition created : World := createPolarion settings boot.

(** The world after [initialize()] has run. *)
Definition connected : World := default created (resume settings service 0 created).

(** The session object of [w], about to run a method. *)
Definition on (w : World) : St :=
  {| this := 0;
     self := default (fst (Polarion_new "" "" "" true w)) (heap w !! 0%nat);
     world := w |}.

Definition item : PolarionWorkItem :=
  {| wi_id := Some "ABC-1"; wi_title := "Fix bug";
     wi_type_id := "task";
     wi_type := {| ty_name := "task"; ty_iconPath := None |};
     wi_author_id := "u1";
     wi_author := {| us_name := "Ann"; us_email := None; us_initials := None |};
     wi_status_id := "open";
     wi_status :=
       {| st_name := "Open"; st_color := Some "#00FF00";
          st_iconPath := Some "data:image/gif;base64,YWJj" |};
     wi_description := None; wi_unresolvable := "false";
     wi_project_id := "P";
     wi_downloadAttachment :=
       {| dl_session := 0; dl_itemId := "ABC-1"; dl_projectId := "P" |} |}.

(** The session after [ABC-1] was resolved once. *)
Definition resolved : St :=
  snd (getWorkItem settings service "ABC-1" (on connected)).

(** A session with the attachment [img1] of [ABC-1] in its cache. *)
Definition with_attachment : St :=
  let s := on connected in
  {| this := 0;
     self := set_attachmentCache {[ "ABC-1:img1" := "aW1n" ]} (self s);
     world := world s |}.

(** The status mapping the service gives for project [P] and type [task]. *)
Definition status_map : gmap string StatusInfo :=
  {[ "open" :=
       {| st_name := "Open"; st_color := Some "#00FF00";
          st_iconPath := Some "data:image/gif;base64,YWJj" |};
     "closed" :=
       {| st_name := "Closed"; st_color := Some "#000000";
          st_iconPath := None |} ]}.

(** The service during an outage: the connection test, every work item
    query and every download fail with status 500. *)
Definition outage : Remote :=
  {| projects_api := fun _ => Rejected server_error;
     workitems_api := fun _ _ => Rejected server_error;
     status_api := status_api service;
     types_api := types_api service;
     users_api := users_api service;
     binary_api := fun _ _ => Rejected server_error;
     latency := latency service |}.

(** A session that has [ABC-1] in its item cache and is not initialized:
    the session that resolved [ABC-1], after [initialize()] was run on it
    again during the outage. *)
Definition offline_with_item : St :=
  snd (initialize settings outage resolved).


End Demo.

(** ** What a method leaves alone *)

(** [m] takes every state to one that [R] relates to it. *)
Definition preserves {A} (R : St -> St -> Prop) (m : M A) : Prop :=
  forall s, R s (snd (m s)).

(** The exported variable refers to a session object. *)
Definition exported_session (w : World) : Prop :=
  exists ref, polarion w = Some ref /\ (ref < length (heap w))%nat.

(** What no method but [initialize] and [clearCache] disturbs: the
    identity of the object, its URL and credentials, its authentication
    headers and HTTP client, whether it is initialized, its popup budget
    and last message, the notifications shown, the connection events
    fired, and the session objects that exist (new ones may be added
    after them); the exception counter does not go down, and the
    exported variable keeps referring to a session object. *)
Definition undisturbed (s s' : St) : Prop :=
  this s' = this s
  /\ polarionUrl (self s') = polarionUrl (self s)
  /\ polarionUser (self s') = polarionUser (self s)
  /\ polarionPassword (self s') = polarionPassword (self s)
  /\ useTokenAuth (self s') = useTokenAuth (self s)
  /\ polarionToken (self s') = polarionToken (self s)
  /\ authHeaders (self s') = authHeaders (self s)
  /\ httpClient (self s') = httpClient (self s)
  /\ initialized (self s') = initialized (self s)
  /\ numberOfPopupsToShow (self s') = numberOfPopupsToShow (self s)
  /\ lastMessage (self s') = lastMessage (self s)
  /\ exceptionCount (self s) <= exceptionCount (self s')
  /\ notifications (world s') = notifications (world s)
  /\ connectionEvents (world s') = connectionEvents (world s)
  /\ (exported_session (world s) -> exported_session (world s'))
  /\ exists news, heap (world s') = heap (world s) ++ news.

(** The popup budget of the session does not go up, and does not go
    below zero if it was not below zero. *)
Definition within_budget (s s' : St) : Prop :=
  0 <= numberOfPopupsToShow (self s) ->
  0 <= numberOfPopupsToShow (self s') <= numberOfPopupsToShow (self s).

(** The data URI [downloadStatusIcon] builds for the bytes [data] of the
    icon at [iconURL]. *)
Definition data_uri (iconURL data : string) : string :=
  "data:" +:+ mime_of iconURL +:+ ";base64," +:+ Js.base64 data.

(** The request of an icon download. *)
Definition icon_query (iconURL : string) (auth : option string) : Request :=
  {| url := iconURL; params := []; responseType := Some "arraybuffer";
     req_headers := [("Accept", "image/*")]; authorization := auth |}.

(** The request of an attachment download. *)
Definition attachment_query (projectId workitemId attachmentId : string)
    (auth : option string) : Request :=
  {| url := attachment_url projectId workitemId attachmentId; params := [];
     responseType := Some "arraybuffer"; req_headers := [("Accept", "*/*")];
     authorization := auth |}.

(** ** Initialization, observed *)





(** ** Settings, compared *)

(** The settings with another user name and password. *)
Definition with_credentials (username password : option string)
    (cfg : Settings) : Settings :=
  {| Url := Url cfg; UseTokenAuth := UseTokenAuth cfg;
     Username := username; Password := password; Token := Token cfg;
     RefreshTime := RefreshTime cfg; ExceptionRestart := ExceptionRestart cfg;
     configFile := configFile cfg |}.

(** The line [createPolarion] writes when it makes no session. *)
Definition settings_error (cfg : Settings) : string :=
  if Js.truthy (Url cfg) then
    "Error: Username and password must be configured when token authentication is disabled"
  else "Error: URL must be configured".

(** ** The callers of the session: decorations and the outline *)

(** A [vscode.Range]. *)
Record Range := {
  start_line : Z;
  start_character : Z;
  end_line : Z;
  end_character : Z
}.


(** *** [utils.ts] *)

Definition hex_upper (c : ascii) : bool :=
  let n := nat_of_ascii c in
  (((48 <=? n) && (n <=? 57)) || ((65 <=? n) && (n <=? 70)))%nat.

(** [/^#[0-9A-F]{6}$/.test(s)] *)
Definition color_pattern (s : string) : bool :=
  match s with
  | String c digits =>
      Ascii.eqb c "#"%char && (String.length digits =? 6)%nat
      && forallb hex_upper (list_ascii_of_string digits)
  | EmptyString => false
  end.

(** [getDecorateColor()], of the setting [Polarion.Color]. *)
Definition getDecorateColor (settingsColor : option string) : string :=
  let selectedColor := "#777777" in
  if Js.truthy settingsColor then
    if color_pattern (default "" settingsColor) then default "" settingsColor
    else selectedColor
  else selectedColor.

(** [get(name) === ""]: the setting is there and empty. *)
Definition is_empty_string (v : option string) : bool :=
  match v with
  | Some s => String.eqb s ""
  | None => false
  end.

(** [vscode.window.showWarningMessage] and [showInformationMessage], as
    [checkSettings] calls them. *)
Inductive SettingsMessage :=
| Warning (message : string)
| Information (message : string).

(** The array [missingConfiguration] of [checkSettings], for the settings
    and the two settings the session does not read, [Polarion.Project]
    and [Polarion.Prefix]. *)
Definition missingConfiguration (cfg : Settings) (project prefix : option string)
    : list string :=
  let useTokenAuth := default true (UseTokenAuth cfg) in
  (if is_empty_string (Url cfg) then ["Url"] else [])
  ++ (if is_empty_string project then ["Project"] else [])
  ++ (if is_empty_string prefix then ["Prefix"] else [])
  ++ match configFile cfg with
     | Some _ => []
     | None =>
         if useTokenAuth then
           if negb (token_present (Token cfg)) then ["Token"] else []
         else
           (if is_empty_string (Username cfg) then ["Username"] else [])
           ++ (if is_empty_string (Password cfg) then ["Password"] else [])
     end.

(** [names.join(', ')] *)
Fixpoint join_comma (names : list string) : string :=
  match names with
  | [] => ""
  | [name] => name
  | name :: rest => name +:+ ", " +:+ join_comma rest
  end.

(** [checkSettings()]: the messages it shows. *)
Definition checkSettings (cfg : Settings) (project prefix : option string)
    : list SettingsMessage :=
  let missing := missingConfiguration cfg project prefix in
  (if (0 <? length missing)%nat then
     [Warning ("The following Polarion settings are not set: "
               +:+ join_comma missing)]
   else [])
  ++ (if default true (UseTokenAuth cfg) then
        [Information
           "Polarion will use token authentication from VS Code settings"]
      else []).

(** [getWorkItemText(workItem)]: the title is asked of the exported
    session; there is a [TypeError] when no session is exported. *)
Definition getWorkItemText (cfg : Settings) (remote : Remote)
    (workItem : string) (w : World) : Result string * World :=
  match call_polarion (getTitleFromWorkItem cfg remote workItem) w with
  | Some (Return title, w') =>
      (Return match title with
              | Some title => workItem +:+ ": " +:+ title
              | None => ""
              end, w')
  | Some (Throw e, w') => (Throw e, w')
  | None =>
      (Throw (TypeError
         "Cannot read properties of undefined (reading 'getTitleFromWorkItem')"),
       w)
  end.

(** *** [editor.ts] *)

Record DecorationOptions := {
  d_range : Range;
  d_contentText : string;
  d_color : string;
  d_margin : string
}.

(** The decoration [decorate] puts after the line of one occurrence. *)
Definition decoration (decorationColor title : string) (itemRange : Range)
    : DecorationOptions :=
  {| d_range :=
       {| start_line := start_line itemRange; start_character := 200;
          end_line := end_line itemRange; end_character := 201 |};
     d_contentText := title; d_color := decorationColor; d_margin := "50px" |}.

(** The loop [for (const item of items)] of [decorate], over the work
    items of the document with the ranges of their occurrences. *)
Fixpoint decorate_items (cfg : Settings) (remote : Remote)
    (decorationColor : string) (items : list (string * list Range))
    (decorationsArray : list DecorationOptions) (w : World)
    : Result (list DecorationOptions) * World :=
  match items with
  | [] => (Return decorationsArray, w)
  | item :: rest =>
      match getWorkItemText cfg remote item.1 w with
      | (Return title, w1) =>
          decorate_items cfg remote decorationColor rest
            (decorationsArray ++ (decoration decorationColor title <$> item.2))
            w1
      | (Throw e, w1) => (Throw e, w1)
      end
  end.

(** [decorate(editor)]: the decorations it sets on the editor, for the
    color setting and the items [mapItemsInDocument] found. *)
Definition decorate (cfg : Settings) (remote : Remote)
    (settingsColor : option string) (items : list (string * list Range))
    (w : World) : Result (list DecorationOptions) * World :=
  decorate_items cfg remote (getDecorateColor settingsColor) items [] w.

(** *** [polarionoutline.ts] *)


(** An entry of the outline; every work item entry is collapsed. *)
Record OutlineItem := {
  oi_label : string;
  oi_type : string;
  oi_range : option Range;
  oi_workItemId : option string
}.

Definition workitem_entry (label : string) (obj : string * Range)
    : OutlineItem :=
  {| oi_label := label; oi_type := "workitem"; oi_range := Some obj.2;
     oi_workItemId := Some obj.1 |}.

(** [pol.polarion && pol.polarion.initialized] *)
Definition polarion_initialized (w : World) : bool :=
  match polarion w with
  | Some ref =>
      match heap w !! ref with
      | Some p => initialized p
      | None => false
      end
  | None => false
  end.

(** The loop of [findWorkItemsInEditor], over the occurrences
    [listItemsInDocument] found. *)
Fixpoint findWorkItemsInEditor (cfg : Settings) (remote : Remote)
    (items : list (string * Range)) (resultList : list OutlineItem)
    (w : World) : list OutlineItem * World :=
  match items with
  | [] => (resultList, w)
  | obj :: rest =>
      let '(displayLabel, w1) :=
        if polarion_initialized w then
          match call_polarion (getWorkItem cfg remote obj.1) w with
          | Some (Return workItem, w1) =>
              (match workItem with
               | Some workItem =>
                   if negb (String.eqb (wi_title workItem) "") then
                     obj.1 +:+ ": " +:+ wi_title workItem
                   else obj.1
               | None => obj.1
               end, w1)
          | Some (Throw _, w1) => (obj.1 +:+ " (Title unavailable)", w1)
          | None => (obj.1 +:+ " (Title unavailable)", w)
          end
        else (obj.1 +:+ " (Polarion not connected)", w) in
      findWorkItemsInEditor cfg remote rest
        (resultList ++ [workitem_entry displayLabel obj]) w1
  end.

(** The text [getWorkItemText] gives for [workItem]: empty, or the id,
    a colon and a title. *)
Definition item_text (workItem text : string) : Prop :=
  text = "" \/ exists title, text = workItem +:+ ": " +:+ title.

(** The outline entry of the occurrence [obj]: it carries the id and the
    range of the occurrence, and its label is the id, the id with a
    non-empty title, or the id marked as not connected. *)
Definition entry_of (obj : string * Range) (entry : OutlineItem) : Prop :=
  oi_workItemId entry = Some obj.1 /\ oi_range entry = Some obj.2
  /\ oi_type entry = "workitem"
  /\ (oi_label entry = obj.1
      \/ oi_label entry = obj.1 +:+ " (Polarion not connected)"
      \/ exists title, title <> "" /\ oi_label entry = obj.1 +:+ ": " +:+ title).

(** ** Further installations, for the examples *)

Module Cases.

Definition not_found : JsError :=
  {| err_name := "AxiosError";
     err_message := "Request failed with status code 404";
     err_status := Some 404 |}.

(** A service that knows no work item and refuses the queries for
    users and status options. *)
Definition refusing : Remote :=
  {| projects_api := projects_api Demo.service;
     workitems_api := fun _ _ => Rejected not_found;
     status_api := fun _ _ _ => Rejected Demo.server_error;
     types_api := types_api Demo.service;
     users_api := fun _ _ => Rejected Demo.server_error;
     binary_api := binary_api Demo.service;
     latency := latency Demo.service |}.

(** A service that answers the query for status options with status 204
    and no data. *)
Definition silent : Remote :=
  {| projects_api := projects_api Demo.service;
     workitems_api := workitems_api Demo.service;
     status_api := fun _ _ _ => Response 204 None;
     types_api := types_api Demo.service;
     users_api := users_api Demo.service;
     binary_api := binary_api Demo.service;
     latency := latency Demo.service |}.

(** The demo settings without a restart limit. *)
Definition no_restart : Settings :=
  {| Url := Url Demo.settings; UseTokenAuth := UseTokenAuth Demo.settings;
     Username := Username Demo.settings; Password := Password Demo.settings;
     Token := Token Demo.settings; RefreshTime := RefreshTime Demo.settings;
     ExceptionRestart := None; configFile := None |}.


(** The demo settings without a URL. *)
Definition no_url : Settings :=
  {| Url := None; UseTokenAuth := UseTokenAuth Demo.settings;
     Username := Username Demo.settings; Password := Password Demo.settings;
     Token := Token Demo.settings; RefreshTime := RefreshTime Demo.settings;
     ExceptionRestart := ExceptionRestart Demo.settings; configFile := None |}.

(** The demo settings next to a configuration file that has a password
    and no user name. *)
Definition with_file : Settings :=
  {| Url := Url Demo.settings; UseTokenAuth := Some false;
     Username := Username Demo.settings; Password := Password Demo.settings;
     Token := Token Demo.settings; RefreshTime := RefreshTime Demo.settings;
     ExceptionRestart := ExceptionRestart Demo.settings;
     configFile :=
       Some {| fc_username := None; fc_password := Some "secret";
               fc_token := None; fc_useTokenAuth := None |} |}.

(** Settings with token authentication on, next to a configuration file
    that turns it off and has a user and a password. *)
Definition file_basic : Settings :=
  {| Url := Url Demo.settings; UseTokenAuth := Some true;
     Username := None; Password := None;
     Token := Token Demo.settings; RefreshTime := RefreshTime Demo.settings;
     ExceptionRestart := ExceptionRestart Demo.settings;
     configFile :=
       Some {| fc_username := Some "user"; fc_password := Some "secret";
               fc_token := None; fc_useTokenAuth := Some false |} |}.

(** The world after the demo session has restarted during the outage:
    two session objects, the second one exported. *)
Definition restarted : World :=
  default Demo.connected
    (snd <$> call_polarion
               (fetch_each Demo.settings Demo.outage ["XY-1"; "XY-2"; "XY-3"])
               Demo.connected).

(** A session as the constructor leaves it. *)
Definition new_session : St :=
  {| this := length (heap Demo.boot);
     self := fst (Polarion_new "http://polarion.example.com" "user" "" false
                    Demo.boot);
     world := Demo.boot |}.

(** A document in which [ABC-1] occurs on lines 3 and 8 and [XY-7] on
    line 5. *)
Definition line3 : Range :=
  {| start_line := 3; start_character := 4; end_line := 3;
     end_character := 9 |}.

Definition line5 : Range :=
  {| start_line := 5; start_character := 0; end_line := 5;
     end_character := 4 |}.

Definition line8 : Range :=
  {| start_line := 8; start_character := 12; end_line := 8;
     end_character := 17 |}.

Definition mapped : list (string * list Range) :=
  [("ABC-1", [line3; line8]); ("XY-7", [line5])].

Definition listed : list (string * Range) :=
  [("ABC-1", line3); ("XY-7", line5); ("ABC-1", line8)].

End Cases.

(** * Properties *)

(** ** The monad *)

Section Logic.

Context {A B : Type}.

Lemma returns_ret (a : A) : returns (ret a).
Proof. intros s. by exists a, s. Qed.

Lemma returns_bind (m : M A) (k : A -> M B) :
  returns m -> (forall a, returns (k a)) -> returns (bind m k).
Proof.
  intros Hm Hk s. destruct (Hm s) as (a & s1 & E).
  destruct (Hk a s1) as (b & s2 & E2).
  exists b, s2. unfold bind. by rewrite E.
Qed.

(** A [try] whose handler never throws never throws. *)
Lemma returns_try_catch (m : M A) (h : JsError -> M A) :
  (forall e, returns (h e)) -> returns (try_catch m h).
Proof.
  intros Hh s. unfold try_catch.
  destruct (m s) as [[a | e] s1]; [by exists a, s1 | apply Hh].
Qed.

Lemma sends_ret P (a : A) : sends P (ret a).
Proof. intros s. exists []. by split. Qed.

Lemma sends_throw P e : sends P (throw (A := A) e).
Proof. intros s. exists []. by split. Qed.

Lemma sends_bind P (m : M A) (k : A -> M B) :
  sends P m -> (forall a, sends P (k a)) -> sends P (bind m k).
Proof.
  intros Hm Hk s. destruct (Hm s) as (x1 & E1 & F1). unfold bind.
  destruct (m s) as [[a | e] s1]; simpl in *.
  - destruct (Hk a s1) as (x2 & E2 & F2). exists (x2 ++ x1).
    rewrite E2, E1, app_assoc. split; [done | by apply Forall_app].
  - by exists x1.
Qed.

Lemma sends_try_catch P (m : M A) (h : JsError -> M A) :
  sends P m -> (forall e, sends P (h e)) -> sends P (try_catch m h).
Proof.
  intros Hm Hh s. destruct (Hm s) as (x1 & E1 & F1). unfold try_catch.
  destruct (m s) as [[a | e] s1]; simpl in *.
  - by exists x1.
  - destruct (Hh e s1) as (x2 & E2 & F2). exists (x2 ++ x1).
    rewrite E2, E1, app_assoc. split; [done | by apply Forall_app].
Qed.

Lemma sends_weaken (P Q : Request -> Prop) (m : M A) :
  (forall r, P r -> Q r) -> sends P m -> sends Q m.
Proof.
  intros HPQ Hm s. destruct (Hm s) as (x & E & F). exists x. split; [done |].
  eapply Forall_impl; eauto.
Qed.

End Logic.

Lemma returns_update f : returns (update f).
Proof. intros s. by eexists _, _. Qed.

Lemma returns_update_world f : returns (update_world f).
Proof. intros s. by eexists _, _. Qed.

Lemma returns_get_self : returns get_self.
Proof. intros s. by eexists _, _. Qed.

Lemma returns_get_this : returns get_this.
Proof. intros s. by eexists _, _. Qed.

Lemma returns_now : returns now.
Proof. intros s. by eexists _, _. Qed.

Lemma returns_when c m : returns m -> returns (when c m).
Proof. destruct c; [done | intros _; apply returns_ret]. Qed.

Lemma returns_report msg level popup : returns (report msg level popup).
Proof.
  unfold report.
  repeat first [ apply returns_bind; [| intros ?] | apply returns_when
               | apply returns_update | apply returns_update_world
               | apply returns_get_self ].
Qed.

Lemma returns_fire b : returns (fire b).
Proof. apply returns_update_world. Qed.

Lemma sends_update P f : sends P (update f).
Proof. intros s. exists []. by split. Qed.

Lemma sends_get_self P : sends P get_self.
Proof. intros s. exists []. by split. Qed.

Lemma sends_get_this P : sends P get_this.
Proof. intros s. exists []. by split. Qed.

Lemma sends_now P : sends P now.
Proof. intros s. exists []. by split. Qed.

(** A change of the world that leaves the history alone sends nothing. *)
Lemma sends_update_world P f :
  (forall w, requests (f w) = requests w) -> sends P (update_world f).
Proof. intros Hf s. exists []. simpl. by rewrite Hf. Qed.

Lemma sends_when P c m : sends P m -> sends P (when c m).
Proof. destruct c; [done | intros _; apply sends_ret]. Qed.

Lemma sends_report P msg level popup : sends P (report msg level popup).
Proof.
  unfold report.
  repeat first [ apply sends_bind; [| intros ?] | apply sends_when
               | apply sends_update | apply sends_get_self
               | by apply sends_update_world ].
Qed.

Lemma sends_fire P b : sends P (fire b).
Proof. by apply sends_update_world. Qed.

(** [http_get] adds the one request it is given. *)
Lemma sends_http_get {A} (P : Request -> Prop) remote path ps rt hs
    (api : list Request -> Reply A) :
  (forall auth,
     P {| url := path; params := ps; responseType := rt; req_headers := hs;
          authorization := auth |}) ->
  sends P (http_get remote path ps rt hs api).
Proof.
  intros HP s. eexists [_]. unfold http_get.
  destruct (api _); simpl; (split; [reflexivity | by constructor]).
Qed.

(** ** JavaScript strings, on examples *)

Example base64_user_pass : Js.base64 "user:pass" = "dXNlcjpwYXNz".
Proof. reflexivity. Qed.

Example base64_padding :
  Js.base64 "a" = "YQ==" /\ Js.base64 "ab" = "YWI=" /\ Js.base64 "abc" = "YWJj".
Proof. repeat split. Qed.

Example trim_blank : Js.trim "  	 " = "" /\ Js.trim " tok en " = "tok en".
Proof. split; reflexivity. Qed.

Example endsWith_polarion :
  Js.endsWith "http://host/polarion/" "/polarion/" = true
  /\ Js.endsWith "http://host/" "/polarion/" = false.
Proof. split; reflexivity. Qed.

Example slice0_neg : Js.slice0 "http://host/polarion/" (-10) = "http://host".
Proof. reflexivity. Qed.

Example split_dot_pop_ex :
  Js.split_dot_pop "/icons/open.GIF" = "GIF" /\ Js.split_dot_pop "nodot" = "nodot".
Proof. split; reflexivity. Qed.

(** ** Which requests the methods send *)

Ltac sends_step :=
  lazymatch goal with
  | |- sends _ (bind _ _) => apply sends_bind; [| intros ?]
  | |- sends _ (try_catch _ _) => apply sends_try_catch; [| intros ?]
  | |- sends _ (ret _) => apply sends_ret
  | |- sends _ (throw _) => apply sends_throw
  | |- sends _ (update _) => apply sends_update
  | |- sends _ get_self => apply sends_get_self
  | |- sends _ get_this => apply sends_get_this
  | |- sends _ now => apply sends_now
  | |- sends _ (report _ _ _) => apply sends_report
  | |- sends _ (fire _) => apply sends_fire
  | |- sends _ (when _ _) => apply sends_when
  | |- sends _ (http_get _ _ _ _ _ _) => apply sends_http_get; intros ?
  | |- sends _ (if ?c then _ else _) => destruct c
  | |- sends _ (match ?x with _ => _ end) => destruct x
  end.

Ltac sends_auto := repeat sends_step; eauto.

(** Nothing was sent when every request sent satisfies [False]. *)
Lemma sends_nothing {A} (m : M A) s :
  sends (fun _ => False) m -> requests (world (snd (m s))) = requests (world s).
Proof.
  intros Hm. destruct (Hm s) as (x & E & F). destruct x as [| r x]; [done |].
  by inversion F.
Qed.

Lemma Polarion_new_requests url username password tokenAuth w :
  requests (snd (Polarion_new url username password tokenAuth w)) = requests w.
Proof.
  unfold Polarion_new. cbv zeta. simpl snd.
  match goal with |- context [snd (?m ?s)] => apply (sends_nothing m s) end.
  sends_auto.
Qed.

Lemma createPolarion_requests cfg w :
  requests (createPolarion cfg w) = requests w.
Proof.
  unfold createPolarion.
  destruct (configFile cfg); cbv zeta beta iota;
    repeat match goal with
    | |- context [if ?c then _ else _] => destruct c
    end; try done;
    match goal with
    | |- context [Polarion_new ?a ?b ?c ?d ?w] =>
        pose proof (Polarion_new_requests a b c d w) as H;
        destruct (Polarion_new a b c d w); simpl in *; exact H
    end.
Qed.

Section Quiet.

Context (cfg : Settings) (remote : Remote) (P : Request -> Prop).

(** [P] holds of every request that is not a work item query: those
    with no parameters or one parameter. *)
Hypothesis P_short : forall r, length (params r) <> 2%nat -> P r.

Local Ltac short := apply P_short; simpl; lia.

Lemma sends_count_exception : sends P (count_exception cfg).
Proof.
  unfold count_exception. sends_auto.
  apply sends_update_world, createPolarion_requests.
Qed.

Lemma sends_downloadStatusIcon iconURL :
  sends P (downloadStatusIcon remote iconURL).
Proof. unfold downloadStatusIcon. sends_auto; short. Qed.

Lemma sends_option_icon what o :
  sends P (option_icon what (downloadStatusIcon remote) o).
Proof. unfold option_icon. sends_auto; apply sends_downloadStatusIcon. Qed.

Lemma sends_status_options options statusMap :
  sends P (status_options remote options statusMap).
Proof.
  revert statusMap. induction options as [| [o |] rest IH]; intros; simpl.
  - apply sends_ret.
  - destruct (_ && _); [| apply IH].
    apply sends_bind; [apply sends_option_icon | intros; apply IH].
  - apply sends_throw.
Qed.

Lemma sends_type_options options typeMap :
  sends P (type_options remote options typeMap).
Proof.
  revert typeMap. induction options as [| [o |] rest IH]; intros; simpl.
  - apply sends_ret.
  - destruct (_ && _); [| apply IH].
    apply sends_bind; [apply sends_option_icon | intros; apply IH].
  - apply sends_throw.
Qed.

Lemma sends_fetchStatusMappingsFromPolarion projectId workitemType :
  sends P (fetchStatusMappingsFromPolarion remote projectId workitemType).
Proof.
  unfold fetchStatusMappingsFromPolarion. sends_auto; try short.
  all: apply sends_status_options.
Qed.

Lemma sends_getStatusDisplayInfo statusId projectId workitemType :
  sends P (getStatusDisplayInfo cfg remote statusId projectId workitemType).
Proof.
  unfold getStatusDisplayInfo, getStatusMappings. sends_auto;
    apply sends_fetchStatusMappingsFromPolarion.
Qed.

Lemma sends_fetchWorkitemTypeMappingsFromPolarion projectId :
  sends P (fetchWorkitemTypeMappingsFromPolarion remote projectId).
Proof.
  unfold fetchWorkitemTypeMappingsFromPolarion. sends_auto; try short.
  all: apply sends_type_options.
Qed.

Lemma sends_getWorkitemTypeDisplayInfo typeId projectId :
  sends P (getWorkitemTypeDisplayInfo cfg remote typeId projectId).
Proof.
  unfold getWorkitemTypeDisplayInfo, getWorkitemTypeMappings. sends_auto;
    apply sends_fetchWorkitemTypeMappingsFromPolarion.
Qed.

Lemma sends_fetchUserFromPolarion userId :
  sends P (fetchUserFromPolarion remote userId).
Proof.
  unfold fetchUserFromPolarion, store_user. sends_auto; short.
Qed.

Lemma sends_getUserDisplayInfo userId :
  sends P (getUserDisplayInfo cfg remote userId).
Proof.
  unfold getUserDisplayInfo, getUserInfo. sends_auto;
    apply sends_fetchUserFromPolarion.
Qed.

Lemma sends_downloadWorkitemAttachmentForProject workitemId attachmentId projectId :
  sends P (downloadWorkitemAttachmentForProject remote workitemId attachmentId
             projectId).
Proof. unfold downloadWorkitemAttachmentForProject. sends_auto; short. Qed.

End Quiet.

(** ** The methods that never throw *)

Ltac returns_step :=
  lazymatch goal with
  | |- returns (bind _ _) => apply returns_bind; [| intros ?]
  | |- returns (try_catch _ _) => apply returns_try_catch; intros ?
  | |- returns (ret _) => apply returns_ret
  | |- returns (update _) => apply returns_update
  | |- returns (update_world _) => apply returns_update_world
  | |- returns get_self => apply returns_get_self
  | |- returns get_this => apply returns_get_this
  | |- returns now => apply returns_now
  | |- returns (report _ _ _) => apply returns_report
  | |- returns (fire _) => apply returns_fire
  | |- returns (when _ _) => apply returns_when
  | |- returns (if ?c then _ else _) => destruct c
  | |- returns (match ?x with _ => _ end) => destruct x
  end.

Ltac returns_auto := repeat returns_step.

Section Returns.

Context (cfg : Settings) (remote : Remote).

Lemma returns_count_exception : returns (count_exception cfg).
Proof. unfold count_exception. returns_auto. Qed.

Lemma returns_downloadStatusIcon iconURL :
  returns (downloadStatusIcon remote iconURL).
Proof. unfold downloadStatusIcon. returns_auto. Qed.

Lemma returns_downloadWorkitemAttachmentForProject workitemId attachmentId
    projectId :
  returns (downloadWorkitemAttachmentForProject remote workitemId attachmentId
             projectId).
Proof. unfold downloadWorkitemAttachmentForProject. returns_auto. Qed.

Lemma returns_fetchStatusMappingsFromPolarion projectId workitemType :
  returns (fetchStatusMappingsFromPolarion remote projectId workitemType).
Proof. unfold fetchStatusMappingsFromPolarion. returns_auto. Qed.

Lemma returns_getStatusMappings projectId workitemType :
  returns (getStatusMappings cfg remote projectId workitemType).
Proof.
  unfold getStatusMappings. returns_auto;
    apply returns_fetchStatusMappingsFromPolarion.
Qed.

Lemma returns_getStatusDisplayInfo statusId projectId workitemType :
  returns (getStatusDisplayInfo cfg remote statusId projectId workitemType).
Proof.
  unfold getStatusDisplayInfo. returns_auto. apply returns_getStatusMappings.
Qed.

Lemma returns_fetchWorkitemTypeMappingsFromPolarion projectId :
  returns (fetchWorkitemTypeMappingsFromPolarion remote projectId).
Proof. unfold fetchWorkitemTypeMappingsFromPolarion. returns_auto. Qed.

Lemma returns_getWorkitemTypeMappings projectId :
  returns (getWorkitemTypeMappings cfg remote projectId).
Proof.
  unfold getWorkitemTypeMappings. returns_auto;
    apply returns_fetchWorkitemTypeMappingsFromPolarion.
Qed.

Lemma returns_getWorkitemTypeDisplayInfo typeId projectId :
  returns (getWorkitemTypeDisplayInfo cfg remote typeId projectId).
Proof.
  unfold getWorkitemTypeDisplayInfo. returns_auto.
  apply returns_getWorkitemTypeMappings.
Qed.

Lemma returns_fetchUserFromPolarion userId :
  returns (fetchUserFromPolarion remote userId).
Proof. unfold fetchUserFromPolarion, store_user. returns_auto. Qed.

Lemma returns_getUserInfo userId : returns (getUserInfo cfg remote userId).
Proof.
  unfold getUserInfo. returns_auto; apply returns_fetchUserFromPolarion.
Qed.

Lemma returns_getWorkItemFromPolarion itemId :
  returns (getWorkItemFromPolarion cfg remote itemId).
Proof.
  unfold getWorkItemFromPolarion. returns_auto; apply returns_count_exception.
Qed.

Lemma returns_getWorkItem workItem : returns (getWorkItem cfg remote workItem).
Proof.
  unfold getWorkItem. returns_auto; apply returns_getWorkItemFromPolarion.
Qed.

Lemma returns_getUrlFromWorkItem itemId :
  returns (getUrlFromWorkItem cfg remote itemId).
Proof.
  unfold getUrlFromWorkItem. apply returns_bind; [apply returns_getWorkItem |].
  intros [wi |]; returns_auto.
Qed.

(** X24: [initialize] always returns: whatever goes wrong in it, a
    missing token, no credentials, a rejected connection test, is caught
    and reported, and nothing is thrown to the caller. *)
Lemma returns_initialize : returns (initialize cfg remote).
Proof. unfold initialize. returns_auto. Qed.

End Returns.

(** ** Resolving on a session that is not initialized *)

(** Without an initialized session [getWorkItem] only looks the id up
    in the item cache. *)
Lemma getWorkItem_offline cfg remote workItem s :
  initialized (self s) = false ->
  getWorkItem cfg remote workItem s
  = (Return (itemCache (self s) !! workItem ≫= workitem), s).
Proof.
  intros Hinit. unfold getWorkItem, bind, get_self, when, ret. rewrite Hinit.
  by destruct (itemCache (self s) !! workItem).
Qed.

(** C3 (as amended): on a session that is not initialized, [getWorkItem]
    sends nothing and changes nothing, neither the item cache nor any
    other part of the session or the world, and it returns what the item
    cache holds for the id: in particular absent when the cache has no
    entry for it. *)
Theorem getWorkItem_uninitialized cfg remote workItem s :
  initialized (self s) = false ->
  getWorkItem cfg remote workItem s
  = (Return (itemCache (self s) !! workItem ≫= workitem), s)
  /\ (itemCache (self s) !! workItem = None ->
      getWorkItem cfg remote workItem s = (Return None, s)).
Proof.
  intros Hinit. split; [by apply getWorkItem_offline |].
  intros Hnone. by rewrite getWorkItem_offline, Hnone.
Qed.

(** The theorem on the demo session before it has connected. *)
Lemma getWorkItem_uninitialized_witness :
  getWorkItem Demo.settings Demo.service "ABC-1" (Demo.on Demo.created)
  = (Return None, Demo.on Demo.created).
Proof.
  apply (getWorkItem_uninitialized Demo.settings Demo.service "ABC-1"
           (Demo.on Demo.created)); reflexivity.
Defined.

(** C3 as stated fails: a session that is not initialized and has the
    item in its cache returns the cached item, not absent.  The session
    is one that had resolved the item and on which [initialize()] then
    failed. *)
Lemma getWorkItem_uninitialized_reads_cache :
  initialized (self Demo.offline_with_item) = false
  /\ (workitem <$> itemCache (self Demo.offline_with_item) !! "ABC-1")
     = Some (Some Demo.item)
  /\ fst (getWorkItem Demo.settings Demo.service "ABC-1" Demo.offline_with_item)
     = Return (Some Demo.item)
  /\ fst (getWorkItem Demo.settings Demo.service "ABC-1" Demo.offline_with_item)
     <> Return None.
Proof.
  split; [vm_compute; reflexivity |]. split; [vm_compute; reflexivity |].
  split; [vm_compute; reflexivity | vm_compute; discriminate].
Qed.

(** ** Sessions that never connected *)

(** What leaves a part [f] of the session object as it is. *)
Section Keeps.

Context {X : Type} (f : Polarion -> X).

Lemma keeps_ret {A} (a : A) : keeps f (ret a).
Proof. by intros s. Qed.

Lemma keeps_throw {A} e : keeps f (throw (A := A) e).
Proof. by intros s. Qed.

Lemma keeps_bind {A B} (m : M A) (k : A -> M B) :
  keeps f m -> (forall a, keeps f (k a)) -> keeps f (bind m k).
Proof.
  intros Hm Hk s. specialize (Hm s). unfold bind.
  destruct (m s) as [[a | e] s1]; simpl in *; [| done].
  by rewrite Hk.
Qed.

Lemma keeps_try_catch {A} (m : M A) (h : JsError -> M A) :
  keeps f m -> (forall e, keeps f (h e)) -> keeps f (try_catch m h).
Proof.
  intros Hm Hh s. specialize (Hm s). unfold try_catch.
  destruct (m s) as [[a | e] s1]; simpl in *; [done |].
  by rewrite Hh.
Qed.

Lemma keeps_update g : (forall p, f (g p) = f p) -> keeps f (update g).
Proof. intros Hg s. apply Hg. Qed.

Lemma keeps_update_world g : keeps f (update_world g).
Proof. by intros s. Qed.

Lemma keeps_get_self : keeps f get_self.
Proof. by intros s. Qed.

Lemma keeps_when c m : keeps f m -> keeps f (when c m).
Proof. destruct c; [done | intros _; apply keeps_ret]. Qed.

Lemma keeps_http_get {A} remote path ps rt hs (api : list Request -> Reply A) :
  keeps f (http_get remote path ps rt hs api).
Proof. intros s. unfold http_get. by destruct (api _). Qed.

(** A report changes the popup budget and the last message only. *)
Lemma keeps_report msg level popup :
  (forall n p, f (set_lastMessage (Some msg) (set_numberOfPopupsToShow n p)) = f p) ->
  keeps f (report msg level popup).
Proof.
  intros Hf. unfold report.
  apply keeps_bind; [apply keeps_update_world | intros _].
  apply keeps_bind; [apply keeps_get_self | intros p].
  apply keeps_when, keeps_bind; [| intros _; apply keeps_update_world].
  apply keeps_update. intros q. apply Hf.
Qed.

End Keeps.

Ltac keeps_step :=
  lazymatch goal with
  | |- keeps _ (bind _ _) => apply keeps_bind; [| intros ?]
  | |- keeps _ (try_catch _ _) => apply keeps_try_catch; [| intros ?]
  | |- keeps _ (ret _) => apply keeps_ret
  | |- keeps _ (throw _) => apply keeps_throw
  | |- keeps _ (update _) => apply keeps_update; intros ?; reflexivity
  | |- keeps _ (update_world _) => apply keeps_update_world
  | |- keeps _ get_self => apply keeps_get_self
  | |- keeps _ (report _ _ _) => apply keeps_report; intros ? ?; reflexivity
  | |- keeps _ (fire _) => apply keeps_update_world
  | |- keeps _ (when _ _) => apply keeps_when
  | |- keeps _ (http_get _ _ _ _ _ _) => apply keeps_http_get
  | |- keeps _ (if ?c then _ else _) => destruct c
  | |- keeps _ (match ?x with _ => _ end) => destruct x
  end.

(** [initialize] does not touch the item cache. *)
Lemma initialize_keeps_itemCache cfg remote :
  keeps itemCache (initialize cfg remote).
Proof.
  unfold initialize, retrieveTokenFromSettings, setupAuthentication,
    testConnection.
  repeat keeps_step.
Qed.

(** A session whose item cache is empty and whose [initialize()] has
    failed resolves every id to absent, and changes nothing in doing so:
    this is every session that is not initialized after [createPolarion],
    since the constructor leaves the caches empty and nothing is stored
    in the item cache of a session that is not initialized. *)
Lemma getWorkItem_never_connected cfg remote workItem s :
  itemCache (self s) = ∅ ->
  initialized (self (snd (initialize cfg remote s))) = false ->
  getWorkItem cfg remote workItem (snd (initialize cfg remote s))
  = (Return None, snd (initialize cfg remote s)).
Proof.
  intros Hempty Hfailed.
  rewrite (getWorkItem_offline cfg remote workItem _ Hfailed).
  by rewrite initialize_keeps_itemCache, Hempty, lookup_empty.
Qed.


(** ** The URL of a work item *)

(** C9: when the resolve inside [getUrlFromWorkItem] returns absent, the
    result is [undefined], and nothing else happens than in that resolve. *)
Theorem getUrlFromWorkItem_absent cfg remote itemId s :
  fst (getWorkItem cfg remote itemId s) = Return None ->
  getUrlFromWorkItem cfg remote itemId s
  = (Return None, snd (getWorkItem cfg remote itemId s)).
Proof.
  intros H. unfold getUrlFromWorkItem, bind.
  destruct (getWorkItem cfg remote itemId s) as [r s1]. simpl in H. by subst r.
Qed.

(** The theorem on an id the demo service does not know. *)
Lemma getUrlFromWorkItem_absent_witness :
  fst (getUrlFromWorkItem Demo.settings Demo.service "XY-7" (Demo.on Demo.connected))
  = Return None.
Proof.
  rewrite (getUrlFromWorkItem_absent Demo.settings Demo.service "XY-7"
             (Demo.on Demo.connected)); reflexivity.
Defined.

(** C2: with the URL of the README, [http://polarion2020.example.com/polarion],
    the URL of [ABC-1] has no slash between the host and [polarion]. *)
Theorem getUrlFromWorkItem_readme_url :
  polarionUrl (self (Demo.on Demo.connected))
  = "http://polarion2020.example.com/polarion"
  /\ fst (getUrlFromWorkItem Demo.settings Demo.service "ABC-1"
            (Demo.on Demo.connected))
     = Return
         (Some "http://polarion2020.example.compolarion/#/project/P/workitem?id=ABC-1").
Proof. split; vm_compute; reflexivity. Qed.

(** *** Strings *)

Lemma append_cons (c : ascii) (a b : string) :
  String c a +:+ b = String c (a +:+ b).
Proof. reflexivity. Qed.

Lemma append_nil (b : string) : "" +:+ b = b.
Proof. reflexivity. Qed.

Lemma length_append (a b : string) :
  String.length (a +:+ b) = (String.length a + String.length b)%nat.
Proof.
  induction a as [| c a IH]; [done |].
  rewrite append_cons. simpl. by rewrite IH.
Qed.

Lemma append_assoc (a b c : string) : (a +:+ b) +:+ c = a +:+ (b +:+ c).
Proof.
  induction a as [| x a IH]; [done |].
  rewrite !append_cons. by rewrite IH.
Qed.

Lemma substring_skip (a b : string) (i m : nat) :
  String.substring (String.length a + i) m (a +:+ b) = String.substring i m b.
Proof.
  induction a as [| c a IH]; [done |]. rewrite append_cons. exact IH.
Qed.

Lemma substring_prefix (a b : string) :
  String.substring 0 (String.length a) (a +:+ b) = a.
Proof.
  induction a as [| c a IH]; [rewrite append_nil; by destruct b |].
  rewrite append_cons. simpl. by rewrite IH.
Qed.

(** Whether a string ends with [x] is decided by any tail of it that is
    at least as long as [x]. *)
Lemma endsWith_append (a t x : string) :
  (String.length x <= String.length t)%nat ->
  Js.endsWith (a +:+ t) x = Js.endsWith t x.
Proof.
  intros Hle. unfold Js.endsWith. rewrite length_append.
  replace (String.length a + String.length t - String.length x)%nat
    with (String.length a + (String.length t - String.length x))%nat by lia.
  rewrite substring_skip.
  destruct (Nat.leb_spec (String.length x) (String.length t)); [| lia].
  destruct (Nat.leb_spec (String.length x)
              (String.length a + String.length t)); [done | lia].
Qed.

Lemma slice0_drop_polarion (host : string) :
  Js.slice0 (host +:+ "/polarion/") (-10) = host.
Proof.
  unfold Js.slice0. rewrite length_append. simpl String.length.
  replace (Z.to_nat _) with (String.length host).
  - apply substring_prefix.
  - destruct (Z.ltb_spec (-10) 0); lia.
Qed.

(** X25: the URL built for a service URL that ends in [/polarion], with or
    without a slash after it: the ten characters of [/polarion/] are cut
    off and [polarion/...] is put directly after what is left. *)
Lemma getUrlFromWorkItem_polarion_suffix cfg remote itemId s workItem host :
  fst (getWorkItem cfg remote itemId s) = Return (Some workItem) ->
  (polarionUrl (self (snd (getWorkItem cfg remote itemId s)))
   = host +:+ "/polarion"
   \/ polarionUrl (self (snd (getWorkItem cfg remote itemId s)))
      = host +:+ "/polarion/") ->
  fst (getUrlFromWorkItem cfg remote itemId s)
  = Return (Some (host +:+ "polarion/#/project/" +:+ wi_project_id workItem
                  +:+ "/workitem?id=" +:+ itemId)).
Proof.
  intros Hres Hurl. unfold getUrlFromWorkItem, bind.
  destruct (getWorkItem cfg remote itemId s) as [r s1]. simpl in *. subst r.
  unfold get_self, ret. simpl.
  assert ((if negb (Js.endsWith (polarionUrl (self s1)) "/")
           then polarionUrl (self s1) +:+ "/" else polarionUrl (self s1))
          = host +:+ "/polarion/") as ->.
  { destruct Hurl as [-> | ->].
    - rewrite (endsWith_append host "/polarion" "/") by (simpl; lia).
      change (Js.endsWith "/polarion" "/") with false.
      change (negb false) with true. cbv iota. by rewrite append_assoc.
    - by rewrite (endsWith_append host "/polarion/" "/") by (simpl; lia). }
  rewrite (endsWith_append host "/polarion/" "/polarion/") by (simpl; lia).
  change (Js.endsWith "/polarion/" "/polarion/") with true. cbv iota.
  by rewrite slice0_drop_polarion.
Qed.

(** ** Running single steps *)

Lemma report_log msg level s :
  report msg level false s
  = (Return tt,
     {| this := this s; self := self s;
        world := set_outputChannel (msg :: outputChannel (world s)) (world s) |}).
Proof. reflexivity. Qed.

(** A [try] that reports, sends one request and goes on with the
    response: the request is in the history when the rest or the handler
    runs. *)
Lemma try_report_get {A B} remote msg path ps rt hs
    (api : list Request -> Reply A) (k : Z * A -> M B) (h : JsError -> M B) s :
  try_catch
    (report msg info false ;;
     response <- http_get remote path ps rt hs api ;; k response) h s
  = let req :=
      {| url := path; params := ps; responseType := rt; req_headers := hs;
         authorization := common (httpClient (self s)) !! "Authorization" |} in
    let s1 :=
      {| this := this s; self := self s;
         world :=
           set_clock (clock (world s) + latency remote (requests (world s)))
             (set_requests (req :: requests (world s))
                (set_outputChannel (msg :: outputChannel (world s)) (world s))) |} in
    match api (requests (world s)) with
    | Response status data => try_catch (k (status, data)) h s1
    | Rejected e => h e s1
    end.
Proof.
  unfold try_catch at 1. unfold bind at 1. rewrite report_log.
  unfold bind at 1. unfold http_get. simpl.
  by destruct (api (requests (world s))).
Qed.


Lemma or_else_nonempty (a : option string) (b : string) :
  b <> "" -> Js.or_else a b <> "".
Proof.
  intros Hb. unfold Js.or_else. destruct a as [t |]; [| done].
  destruct (String.eqb_spec t ""); done.
Qed.

(** ** The status mapping built from a response *)

Section StatusMapping.

Context (remote : Remote).



End StatusMapping.

(** ** Authentication *)



(** ** Failures stay inside the resolver *)

Section Boundary.

Context (cfg : Settings) (remote : Remote).

(** The [catch] of [getWorkItemFromPolarion] returns [undefined]. *)
Lemma getWorkItemFromPolarion_rejected itemId e s :
  initialized (self s) = true ->
  workitems_api remote (requests (world s)) itemId = Rejected e ->
  fst (getWorkItemFromPolarion cfg remote itemId s) = Return None.
Proof.
  intros Hinit Hreply.
  unfold getWorkItemFromPolarion. unfold bind at 1. unfold get_self at 1.
  rewrite Hinit. change (negb true) with false. cbv iota.
  rewrite try_report_get, Hreply. cbv zeta.
  unfold bind at 1.
  match goal with
  | |- context [match ?m ?s with _ => _ end] =>
      assert (returns m) as Hr by (returns_auto; apply returns_count_exception);
      destruct (Hr s) as (a & s1 & ->)
  end.
  reflexivity.
Qed.

(** A [null] in place of the item counts as a failure too. *)
Lemma getWorkItemFromPolarion_null itemId rest s :
  initialized (self s) = true ->
  workitems_api remote (requests (world s)) itemId
  = Response 200 (Some (None :: rest)) ->
  fst (getWorkItemFromPolarion cfg remote itemId s) = Return None.
Proof.
  intros Hinit Hreply.
  unfold getWorkItemFromPolarion. unfold bind at 1. unfold get_self at 1.
  rewrite Hinit. change (negb true) with false. cbv iota.
  rewrite try_report_get, Hreply. cbv zeta. simpl.
  unfold try_catch, throw. unfold bind at 1.
  match goal with
  | |- context [match ?m ?s with _ => _ end] =>
      assert (returns m) as Hr by (returns_auto; apply returns_count_exception);
      destruct (Hr s) as (a & s1 & ->)
  end.
  reflexivity.
Qed.

(** The fetch returns [undefined] unless the service answers with
    status 200 and a list whose first element is an item. *)
Lemma getWorkItemFromPolarion_nothing itemId s :
  initialized (self s) = true ->
  (forall workItem rest,
     workitems_api remote (requests (world s)) itemId
     <> Response 200 (Some (Some workItem :: rest))) ->
  fst (getWorkItemFromPolarion cfg remote itemId s) = Return None.
Proof.
  intros Hinit Hnothing.
  destruct (workitems_api remote (requests (world s)) itemId)
    as [status data | e] eqn:Hreply.
  - destruct (Z.eqb_spec status 200) as [-> | Hstatus].
    + destruct data as [[| [workItem |] rest] |].
      * unfold getWorkItemFromPolarion. unfold bind at 1. unfold get_self at 1.
        rewrite Hinit. change (negb true) with false. cbv iota.
        by rewrite try_report_get, Hreply.
      * by destruct (Hnothing workItem rest).
      * by eapply getWorkItemFromPolarion_null.
      * unfold getWorkItemFromPolarion. unfold bind at 1. unfold get_self at 1.
        rewrite Hinit. change (negb true) with false. cbv iota.
        by rewrite try_report_get, Hreply.
    + unfold getWorkItemFromPolarion. unfold bind at 1. unfold get_self at 1.
      rewrite Hinit. change (negb true) with false. cbv iota.
      rewrite try_report_get, Hreply. cbv zeta. cbn [fst snd].
      by destruct (Z.eqb_spec status 200).
  - by eapply getWorkItemFromPolarion_rejected.
Qed.

(** When [getWorkItem] has to fetch, it returns what the fetch returned
    and leaves it in the item cache with the time of the store. *)
Lemma getWorkItem_fetch workItem s :
  initialized (self s) = true ->
  needs_fetch cfg workItem s ->
  exists item s1,
    getWorkItemFromPolarion cfg remote workItem s = (Return item, s1)
    /\ getWorkItem cfg remote workItem s
       = (Return item,
          {| this := this s1;
             self :=
               set_itemCache
                 (<[workItem := {| workitem := item;
                                   item_time := clock (world s1) |}]>
                    (itemCache (self s1))) (self s1);
             world := world s1 |}).
Proof.
  intros Hinit Hneed.
  destruct (returns_getWorkItemFromPolarion cfg remote workItem s)
    as (item & s1 & Hfetch).
  exists item, s1. split; [exact Hfetch |].
  unfold getWorkItem. unfold bind at 1. unfold get_self at 1. rewrite Hinit.
  unfold needs_fetch in Hneed.
  assert ((match itemCache (self s) !! workItem with
           | Some item0 =>
               current <- now ;; ret (expired cfg current (item_time item0))
           | None => ret true
           end) s = (Return true, s)) as Hdecide.
  { destruct (itemCache (self s) !! workItem); [| done].
    unfold bind, now, ret. by rewrite Hneed. }
  unfold bind at 1. rewrite Hdecide. unfold when.
  unfold bind at 1. unfold bind at 1. rewrite Hfetch.
  unfold bind, now, update, get_self, ret. simpl.
  by rewrite lookup_insert_eq.
Qed.

(** C8: [getWorkItem], [getUrlFromWorkItem], the attachment download and
    the icon download return on every session, world and remote side:
    none of them throws.  A resolve that has to fetch returns absent
    unless the service answers with status 200 and an item: so for a
    request rejected with 404, 401, 403 or 500 or without any response,
    and for a response without data, with an empty list or with [null]
    in place of the item.  An attachment download that finds nothing
    in its cache and gets no response with status 200 returns [null], an
    icon download absent. *)
Theorem resolver_boundary :
  (forall workItem, returns (getWorkItem cfg remote workItem))
  /\ (forall itemId, returns (getUrlFromWorkItem cfg remote itemId))
  /\ (forall workitemId attachmentId projectId,
        returns (downloadWorkitemAttachmentForProject remote workitemId
                   attachmentId projectId))
  /\ (forall iconURL, returns (downloadStatusIcon remote iconURL))
  /\ (forall workItem s,
        initialized (self s) = true ->
        needs_fetch cfg workItem s ->
        (forall item rest,
           workitems_api remote (requests (world s)) workItem
           <> Response 200 (Some (Some item :: rest))) ->
        fst (getWorkItem cfg remote workItem s) = Return None)
  /\ (forall workitemId attachmentId projectId s,
        attachmentCache (self s) !! (workitemId +:+ ":" +:+ attachmentId) = None ->
        (forall data,
           binary_api remote (requests (world s))
             (attachment_url projectId workitemId attachmentId)
           <> Response 200 data) ->
        fst (downloadWorkitemAttachmentForProject remote workitemId attachmentId
               projectId s) = Return None)
  /\ (forall iconURL s,
        iconCache (self s) !! iconURL = None ->
        (forall data,
           binary_api remote (requests (world s)) iconURL <> Response 200 data) ->
        fst (downloadStatusIcon remote iconURL s) = Return None).
Proof.
  split; [apply returns_getWorkItem |].
  split; [apply returns_getUrlFromWorkItem |].
  split; [apply returns_downloadWorkitemAttachmentForProject |].
  split; [apply returns_downloadStatusIcon |].
  split; [| split].
  - intros workItem s Hinit Hneed Hfail.
    destruct (getWorkItem_fetch workItem s Hinit Hneed)
      as (item & s1 & Hfetch & ->). simpl.
    assert (fst (getWorkItemFromPolarion cfg remote workItem s) = Return None)
      as Hnone.
    { by apply getWorkItemFromPolarion_nothing. }
    rewrite Hfetch in Hnone. simpl in Hnone. exact Hnone.
  - intros workitemId attachmentId projectId s Hmiss Hfail.
    unfold downloadWorkitemAttachmentForProject, try_catch.
    unfold bind at 1. unfold get_self at 1. rewrite Hmiss.
    unfold bind at 1. rewrite report_log.
    unfold bind at 1. unfold http_get at 1. simpl.
    destruct (binary_api remote (requests (world s)) _) as [status data | e];
      [| done].
    simpl. destruct (Z.eqb_spec status 200) as [-> | _]; [| done].
    by destruct (Hfail data).
  - intros iconURL s Hmiss Hfail.
    unfold downloadStatusIcon, try_catch.
    unfold bind at 1. unfold get_self at 1. rewrite Hmiss.
    unfold bind at 1. unfold http_get at 1. simpl.
    destruct (binary_api remote (requests (world s)) iconURL)
      as [status data | e]; [| done].
    simpl. destruct (Z.eqb_spec status 200) as [-> | _]; [| done].
    by destruct (Hfail data).
Qed.

End Boundary.

(** ** The fallback of the display resolvers *)

(** A user the service has no attributes for: the fetch stores
    [{ name: userId }] and the resolver returns it. *)
Lemma getUserInfo_unknown cfg remote userId s :
  initialized (self s) = true ->
  userCache (self s) !! userId = None ->
  (forall attributes,
     users_api remote (requests (world s)) userId
     <> Response 200 (Some (Some attributes))) ->
  fst (getUserInfo cfg remote userId s) = Return (name_only userId).
Proof.
  intros Hinit Hmiss Hunknown. unfold getUserInfo.
  unfold bind at 1. unfold get_self at 1. rewrite Hinit, Hmiss.
  change (negb true) with false. cbv iota.
  unfold bind at 1. unfold ret at 1. unfold when. unfold bind at 1.
  unfold fetchUserFromPolarion. rewrite try_report_get. cbv zeta.
  destruct (users_api remote (requests (world s)) userId)
    as [status data | e] eqn:Hreply.
  - cbn [fst snd].
    destruct (Z.eqb_spec status 200) as [-> | Hstatus];
      [destruct data as [[attributes |] |];
         [by destruct (Hunknown attributes) | |] | ];
      unfold try_catch, store_user, bind, now, update, report, update_world,
        get_self, when, ret; simpl; by rewrite lookup_insert_eq.
  - unfold store_user, bind, now, update, report, update_world, get_self,
      when, ret; simpl. by rewrite lookup_insert_eq.
Qed.

(** C6: a status, type or user id that the resolved mapping has no entry
    for is echoed back as the name, with nothing else in the record: for a
    status or a type, when the map of the project has no entry for the
    id; for a user, when the user cache has no entry for the id after the
    fetch step, and also when the service has no attributes for the user
    (the fetch then stores the echo).  The three display resolvers never
    throw. *)
Theorem display_fallback cfg remote s :
  (forall statusId projectId workitemType statusMap,
     fst (getStatusMappings cfg remote projectId workitemType s)
     = Return statusMap ->
     statusMap !! statusId = None ->
     fst (getStatusDisplayInfo cfg remote statusId projectId workitemType s)
     = Return {| st_name := statusId; st_color := None; st_iconPath := None |})
  /\ (forall typeId projectId typeMap,
        fst (getWorkitemTypeMappings cfg remote projectId s) = Return typeMap ->
        typeMap !! typeId = None ->
        fst (getWorkitemTypeDisplayInfo cfg remote typeId projectId s)
        = Return {| ty_name := typeId; ty_iconPath := None |})
  /\ (forall userId,
        userCache (self (snd (getUserDisplayInfo cfg remote userId s))) !! userId
        = None ->
        fst (getUserDisplayInfo cfg remote userId s)
        = Return {| us_name := userId; us_email := None; us_initials := None |})
  /\ (forall userId,
        initialized (self s) = true ->
        userCache (self s) !! userId = None ->
        (forall attributes,
           users_api remote (requests (world s)) userId
           <> Response 200 (Some (Some attributes))) ->
        fst (getUserDisplayInfo cfg remote userId s)
        = Return {| us_name := userId; us_email := None; us_initials := None |})
  /\ (forall statusId projectId workitemType,
        returns (getStatusDisplayInfo cfg remote statusId projectId workitemType))
  /\ (forall typeId projectId,
        returns (getWorkitemTypeDisplayInfo cfg remote typeId projectId))
  /\ (forall userId, returns (getUserDisplayInfo cfg remote userId)).
Proof.
  repeat split.
  - intros statusId projectId workitemType statusMap Hmap Hnone.
    unfold getStatusDisplayInfo, bind.
    destruct (getStatusMappings cfg remote projectId workitemType s)
      as [r s1]. simpl in Hmap. subst r. by rewrite Hnone.
  - intros typeId projectId typeMap Hmap Hnone.
    unfold getWorkitemTypeDisplayInfo, bind.
    destruct (getWorkitemTypeMappings cfg remote projectId s) as [r s1].
    simpl in Hmap. subst r. by rewrite Hnone.
  - intros userId. unfold getUserDisplayInfo.
    destruct (getUserInfo cfg remote userId s) as [r s'] eqn:Hrun. simpl.
    intros Hnone. revert Hrun. unfold getUserInfo.
    unfold bind at 1. unfold get_self at 1.
    destruct (initialized (self s)).
    + change (negb true) with false. cbv iota. unfold bind at 1.
      match goal with
      | |- context [match ?m s with _ => _ end] =>
          assert (returns m) as Hr by returns_auto;
          destruct (Hr s) as (fetchUser & s1 & ->)
      end.
      unfold bind at 1.
      destruct (returns_when fetchUser _
                  (returns_fetchUserFromPolarion remote userId) s1)
        as ([] & s2 & ->).
      unfold bind, get_self, ret. intros [= <- <-]. by rewrite Hnone.
    + change (negb false) with true. cbv iota. by intros [= <- <-].
  - intros userId Hinit Hmiss Hunknown.
    by apply getUserInfo_unknown.
  - intros. apply returns_getStatusDisplayInfo.
  - intros. apply returns_getWorkitemTypeDisplayInfo.
  - intros. apply returns_getUserInfo.
Qed.

(** ** The item cache *)

Lemma expired_stale cfg current time :
  expired cfg current time = true <-> stale cfg current time.
Proof.
  unfold expired, stale. split.
  - destruct (RefreshTime cfg) as [minutes |]; [| done].
    intros [Hnz Hlt]%andb_prop. exists minutes.
    apply negb_true_iff, Z.eqb_neq in Hnz. apply Z.ltb_lt in Hlt. done.
  - intros (minutes & -> & Hnz & Hlt).
    apply andb_true_intro. split.
    + by apply negb_true_iff, Z.eqb_neq.
    + by apply Z.ltb_lt.
Qed.

Lemma expired_not_stale cfg current time :
  expired cfg current time = false <-> ~ stale cfg current time.
Proof.
  rewrite <- expired_stale. by destruct (expired cfg current time).
Qed.

Section ItemCache.

Context (cfg : Settings) (remote : Remote).

Lemma other_than_short itemId r :
  length (params r) <> 2%nat -> other_than itemId r.
Proof. unfold other_than. intros Hlen Heq. by rewrite Heq in Hlen. Qed.

(** The requests of a fetch that starts with a report and one request. *)
Lemma sends_try_report_get {A B} P msg path ps rt hs
    (api : list Request -> Reply A) (k : Z * A -> M B) (h : JsError -> M B) s :
  (forall r, sends P (k r)) -> (forall e, sends P (h e)) ->
  exists extra,
    requests (world (snd (try_catch
      (report msg info false ;;
       response <- http_get remote path ps rt hs api ;; k response) h s)))
    = extra ++
      {| url := path; params := ps; responseType := rt; req_headers := hs;
         authorization := common (httpClient (self s)) !! "Authorization" |}
      :: requests (world s)
    /\ Forall P extra.
Proof.
  intros Hk Hh. rewrite try_report_get. cbv zeta.
  destruct (api (requests (world s))) as [status data | e].
  - match goal with
    | |- context [try_catch ?m ?hh ?s1] =>
        destruct (sends_try_catch P m hh (Hk _) Hh s1) as (extra & E & F)
    end.
    exists extra. split; [exact E | exact F].
  - match goal with
    | |- context [h e ?s1] => destruct (Hh e s1) as (extra & E & F)
    end.
    exists extra. split; [exact E | exact F].
Qed.

(** A fetch of a work item sends the query for it first, and then only
    requests for statuses, types, users and icons. *)
Lemma getWorkItemFromPolarion_requests P itemId s :
  (forall r, length (params r) <> 2%nat -> P r) ->
  initialized (self s) = true ->
  exists extra,
    requests (world (snd (getWorkItemFromPolarion cfg remote itemId s)))
    = extra
      ++ item_query itemId (common (httpClient (self s)) !! "Authorization")
      :: requests (world s)
    /\ Forall P extra.
Proof.
  intros Hshort Hinit.
  unfold getWorkItemFromPolarion. unfold bind at 1. unfold get_self at 1.
  rewrite Hinit. change (negb true) with false. cbv iota.
  apply sends_try_report_get.
  - intros r. sends_auto.
    + by apply sends_getStatusDisplayInfo.
    + by apply sends_getWorkitemTypeDisplayInfo.
    + by apply sends_getUserDisplayInfo.
  - intros e. sends_auto; by apply sends_count_exception.
Qed.

Lemma filter_other_than itemId extra :
  Forall (other_than itemId) extra -> filter (item_request itemId) extra = [].
Proof.
  induction 1 as [| r extra Hr _ IH]; [done |].
  rewrite filter_cons_False; [exact IH |]. intros [_ Hp]. by apply Hr.
Qed.


(** A cached item that is not stale is returned as it is. *)
Lemma getWorkItem_hit workItem entry s :
  itemCache (self s) !! workItem = Some entry ->
  expired cfg (clock (world s)) (item_time entry) = false ->
  getWorkItem cfg remote workItem s = (Return (workitem entry), s).
Proof.
  intros Hentry Hfresh. unfold getWorkItem, bind, get_self, now, when, ret.
  destruct (initialized (self s)); rewrite Hentry; cbv beta iota;
    by rewrite ?Hfresh, ?Hentry.
Qed.


End ItemCache.

(** ** Which cache entries go stale *)

Section Staleness.

Context (cfg : Settings) (remote : Remote).

Lemma any_short r : length (params r) <> 2%nat -> any_request r.
Proof. done. Qed.

Lemma getStatusMappings_hit projectId workitemType entry s :
  initialized (self s) = true ->
  statusCache (self s) !! (projectId +:+ ":" +:+ workitemType) = Some entry ->
  expired cfg (clock (world s)) (status_time entry) = false ->
  getStatusMappings cfg remote projectId workitemType s
  = (Return (statuses entry), s).
Proof.
  intros Hinit Hentry Hfresh.
  unfold getStatusMappings, bind, get_self, now, when, ret.
  rewrite Hinit. change (negb true) with false. cbv iota.
  rewrite Hentry. cbv beta iota. by rewrite Hfresh, Hentry.
Qed.

Lemma getStatusMappings_refetch projectId workitemType entry s :
  initialized (self s) = true ->
  statusCache (self s) !! (projectId +:+ ":" +:+ workitemType) = Some entry ->
  expired cfg (clock (world s)) (status_time entry) = true ->
  exists extra,
    requests (world (snd (getStatusMappings cfg remote projectId workitemType s)))
    = extra
      ++ status_query projectId workitemType
           (common (httpClient (self s)) !! "Authorization")
      :: requests (world s).
Proof.
  intros Hinit Hentry Hstale.
  assert (requests (world (snd (getStatusMappings cfg remote projectId
                                  workitemType s)))
          = requests (world (snd (fetchStatusMappingsFromPolarion remote
                                    projectId workitemType s)))) as ->.
  { unfold getStatusMappings. unfold bind at 1. unfold get_self at 1.
    rewrite Hinit. change (negb true) with false. cbv iota.
    rewrite Hentry. unfold bind at 1. unfold bind at 1. unfold now at 1.
    unfold ret at 1. rewrite Hstale. unfold when. unfold bind at 1.
    by destruct (fetchStatusMappingsFromPolarion remote projectId workitemType s)
      as [[[] | e] s1]. }
  unfold fetchStatusMappingsFromPolarion.
  match goal with
  | |- context [try_catch (report ?msg _ _ ;; bind (http_get _ ?path ?ps ?rt ?hs ?api) ?k) ?h s] =>
      destruct (sends_try_report_get remote any_request msg path ps rt hs api k h s)
        as (extra & E & _)
  end.
  - intros r. sends_auto. by apply sends_status_options.
  - intros e. sends_auto.
  - by exists extra.
Qed.

Lemma getWorkitemTypeMappings_hit projectId entry s :
  initialized (self s) = true ->
  workitemTypeCache (self s) !! projectId = Some entry ->
  expired cfg (clock (world s)) (type_time entry) = false ->
  getWorkitemTypeMappings cfg remote projectId s = (Return (types entry), s).
Proof.
  intros Hinit Hentry Hfresh.
  unfold getWorkitemTypeMappings, bind, get_self, now, when, ret.
  rewrite Hinit. change (negb true) with false. cbv iota.
  rewrite Hentry. cbv beta iota. by rewrite Hfresh, Hentry.
Qed.

Lemma getWorkitemTypeMappings_refetch projectId entry s :
  initialized (self s) = true ->
  workitemTypeCache (self s) !! projectId = Some entry ->
  expired cfg (clock (world s)) (type_time entry) = true ->
  exists extra,
    requests (world (snd (getWorkitemTypeMappings cfg remote projectId s)))
    = extra
      ++ types_query projectId (common (httpClient (self s)) !! "Authorization")
      :: requests (world s).
Proof.
  intros Hinit Hentry Hstale.
  assert (requests (world (snd (getWorkitemTypeMappings cfg remote projectId s)))
          = requests (world (snd (fetchWorkitemTypeMappingsFromPolarion remote
                                    projectId s)))) as ->.
  { unfold getWorkitemTypeMappings. unfold bind at 1. unfold get_self at 1.
    rewrite Hinit. change (negb true) with false. cbv iota.
    rewrite Hentry. unfold bind at 1. unfold bind at 1. unfold now at 1.
    unfold ret at 1. rewrite Hstale. unfold when. unfold bind at 1.
    by destruct (fetchWorkitemTypeMappingsFromPolarion remote projectId s)
      as [[[] | e] s1]. }
  unfold fetchWorkitemTypeMappingsFromPolarion.
  match goal with
  | |- context [try_catch (report ?msg _ _ ;; bind (http_get _ ?path ?ps ?rt ?hs ?api) ?k) ?h s] =>
      destruct (sends_try_report_get remote any_request msg path ps rt hs api k h s)
        as (extra & E & _)
  end.
  - intros r. sends_auto. by apply sends_type_options.
  - intros e. sends_auto.
  - by exists extra.
Qed.

Lemma getUserInfo_hit userId entry s :
  initialized (self s) = true ->
  userCache (self s) !! userId = Some entry ->
  expired cfg (clock (world s)) (user_time entry) = false ->
  getUserInfo cfg remote userId s = (Return (user entry), s).
Proof.
  intros Hinit Hentry Hfresh.
  unfold getUserInfo, bind, get_self, now, when, ret.
  rewrite Hinit. change (negb true) with false. cbv iota.
  rewrite Hentry. cbv beta iota. by rewrite Hfresh, Hentry.
Qed.

Lemma getUserInfo_refetch userId entry s :
  initialized (self s) = true ->
  userCache (self s) !! userId = Some entry ->
  expired cfg (clock (world s)) (user_time entry) = true ->
  exists extra,
    requests (world (snd (getUserInfo cfg remote userId s)))
    = extra
      ++ user_query userId (common (httpClient (self s)) !! "Authorization")
      :: requests (world s).
Proof.
  intros Hinit Hentry Hstale.
  assert (requests (world (snd (getUserInfo cfg remote userId s)))
          = requests (world (snd (fetchUserFromPolarion remote userId s))))
    as ->.
  { unfold getUserInfo. unfold bind at 1. unfold get_self at 1.
    rewrite Hinit. change (negb true) with false. cbv iota.
    rewrite Hentry. unfold bind at 1. unfold bind at 1. unfold now at 1.
    unfold ret at 1. rewrite Hstale. unfold when. unfold bind at 1.
    by destruct (fetchUserFromPolarion remote userId s) as [[[] | e] s1]. }
  unfold fetchUserFromPolarion.
  match goal with
  | |- context [try_catch (report ?msg _ _ ;; bind (http_get _ ?path ?ps ?rt ?hs ?api) ?k) ?h s] =>
      destruct (sends_try_report_get remote any_request msg path ps rt hs api k h s)
        as (extra & E & _)
  end.
  - intros r. unfold store_user. sends_auto.
  - intros e. unfold store_user. sends_auto.
  - by exists extra.
Qed.

Lemma getWorkItem_refetch workItem entry s :
  initialized (self s) = true ->
  itemCache (self s) !! workItem = Some entry ->
  expired cfg (clock (world s)) (item_time entry) = true ->
  exists extra,
    requests (world (snd (getWorkItem cfg remote workItem s)))
    = extra
      ++ item_query workItem (common (httpClient (self s)) !! "Authorization")
      :: requests (world s).
Proof.
  intros Hinit Hentry Hstale.
  destruct (getWorkItem_fetch cfg remote workItem s Hinit)
    as (item & s1 & Hfetch & ->).
  { unfold needs_fetch. by rewrite Hentry. }
  destruct (getWorkItemFromPolarion_requests cfg remote any_request workItem s
              any_short Hinit) as (extra & E & _).
  rewrite Hfetch in E. by exists extra.
Qed.

(** C4 (as amended): an entry of the item, status, type or user cache
    carries the time it was stored at, and on an initialized session it
    is used as it is, with no request, unless it is stale: the refresh
    time is set and not zero, and more than that many minutes lie between
    the clock and the time of the entry; a stale entry makes the resolver
    send its query again.  An entry of the attachment or icon cache
    carries no time and is never stale: the download returns it, at any
    time, with no request. *)
Theorem cache_staleness s :
  (forall workItem entry,
     initialized (self s) = true ->
     itemCache (self s) !! workItem = Some entry ->
     (~ stale cfg (clock (world s)) (item_time entry) ->
      getWorkItem cfg remote workItem s = (Return (workitem entry), s))
     /\ (stale cfg (clock (world s)) (item_time entry) ->
         exists extra,
           requests (world (snd (getWorkItem cfg remote workItem s)))
           = extra
             ++ item_query workItem
                  (common (httpClient (self s)) !! "Authorization")
             :: requests (world s)))
  /\ (forall projectId workitemType entry,
        initialized (self s) = true ->
        statusCache (self s) !! (projectId +:+ ":" +:+ workitemType)
        = Some entry ->
        (~ stale cfg (clock (world s)) (status_time entry) ->
         getStatusMappings cfg remote projectId workitemType s
         = (Return (statuses entry), s))
        /\ (stale cfg (clock (world s)) (status_time entry) ->
            exists extra,
              requests (world (snd (getStatusMappings cfg remote projectId
                                      workitemType s)))
              = extra
                ++ status_query projectId workitemType
                     (common (httpClient (self s)) !! "Authorization")
                :: requests (world s)))
  /\ (forall projectId entry,
        initialized (self s) = true ->
        workitemTypeCache (self s) !! projectId = Some entry ->
        (~ stale cfg (clock (world s)) (type_time entry) ->
         getWorkitemTypeMappings cfg remote projectId s
         = (Return (types entry), s))
        /\ (stale cfg (clock (world s)) (type_time entry) ->
            exists extra,
              requests (world (snd (getWorkitemTypeMappings cfg remote
                                      projectId s)))
              = extra
                ++ types_query projectId
                     (common (httpClient (self s)) !! "Authorization")
                :: requests (world s)))
  /\ (forall userId entry,
        initialized (self s) = true ->
        userCache (self s) !! userId = Some entry ->
        (~ stale cfg (clock (world s)) (user_time entry) ->
         getUserInfo cfg remote userId s = (Return (user entry), s))
        /\ (stale cfg (clock (world s)) (user_time entry) ->
            exists extra,
              requests (world (snd (getUserInfo cfg remote userId s)))
              = extra
                ++ user_query userId
                     (common (httpClient (self s)) !! "Authorization")
                :: requests (world s)))
  /\ (forall workitemId attachmentId projectId base64Data t,
        attachmentCache (self s) !! (workitemId +:+ ":" +:+ attachmentId)
        = Some base64Data ->
        downloadWorkitemAttachmentForProject remote workitemId attachmentId
          projectId (at_time t s)
        = (Return (if String.eqb base64Data "" then None else Some base64Data),
           at_time t s))
  /\ (forall iconURL dataUri t,
        iconCache (self s) !! iconURL = Some dataUri ->
        downloadStatusIcon remote iconURL (at_time t s)
        = (Return (Some dataUri), at_time t s)).
Proof.
  split; [| split; [| split; [| split; [| split]]]].
  - intros workItem entry Hinit Hentry. split.
    + intros Hfresh%expired_not_stale. by apply getWorkItem_hit.
    + intros Hstale%expired_stale. by eapply getWorkItem_refetch.
  - intros projectId workitemType entry Hinit Hentry. split.
    + intros Hfresh%expired_not_stale. by apply getStatusMappings_hit.
    + intros Hstale%expired_stale. by eapply getStatusMappings_refetch.
  - intros projectId entry Hinit Hentry. split.
    + intros Hfresh%expired_not_stale. by apply getWorkitemTypeMappings_hit.
    + intros Hstale%expired_stale. by eapply getWorkitemTypeMappings_refetch.
  - intros userId entry Hinit Hentry. split.
    + intros Hfresh%expired_not_stale. by apply getUserInfo_hit.
    + intros Hstale%expired_stale. by eapply getUserInfo_refetch.
  - intros workitemId attachmentId projectId base64Data t Hentry.
    unfold downloadWorkitemAttachmentForProject, try_catch, bind, get_self, ret.
    simpl. by rewrite Hentry.
  - intros iconURL dataUri t Hentry.
    unfold downloadStatusIcon, try_catch, bind, get_self, ret.
    simpl. by rewrite Hentry.
Qed.

End Staleness.

(** ** The restart threshold *)

Section Restart.

Context (cfg : Settings) (remote : Remote).

Lemma Polarion_new_fresh url username password tokenAuth w :
  fresh_session (fst (Polarion_new url username password tokenAuth w))
  /\ same_sessions w (snd (Polarion_new url username password tokenAuth w)).
Proof.
  unfold Polarion_new. cbv zeta. unfold bind at 1. rewrite report_log.
  unfold bind at 1. rewrite report_log.
  destruct tokenAuth; rewrite report_log; simpl; by repeat split.
Qed.





End Restart.

(** ** Sessions as the extension uses them *)

Section Lifetime.

Context (cfg : Settings) (remote : Remote).

Lemma keeps_get_this {X} (f : Polarion -> X) : keeps f get_this.
Proof. by intros s. Qed.

Lemma keeps_now {X} (f : Polarion -> X) : keeps f now.
Proof. by intros s. Qed.

Ltac keeps_auto :=
  repeat first [ keeps_step | apply keeps_get_this | apply keeps_now ].

Lemma downloadStatusIcon_keeps_initialized iconURL :
  keeps initialized (downloadStatusIcon remote iconURL).
Proof. unfold downloadStatusIcon. keeps_auto. Qed.

Lemma option_icon_keeps_initialized what o :
  keeps initialized (option_icon what (downloadStatusIcon remote) o).
Proof.
  unfold option_icon. keeps_auto. apply downloadStatusIcon_keeps_initialized.
Qed.

Lemma status_options_keeps_initialized options statusMap :
  keeps initialized (status_options remote options statusMap).
Proof.
  revert statusMap. induction options as [| [o |] rest IH]; intros; simpl.
  - apply keeps_ret.
  - destruct (_ && _); [| apply IH].
    apply keeps_bind; [apply option_icon_keeps_initialized | intros; apply IH].
  - apply keeps_throw.
Qed.

Lemma type_options_keeps_initialized options typeMap :
  keeps initialized (type_options remote options typeMap).
Proof.
  revert typeMap. induction options as [| [o |] rest IH]; intros; simpl.
  - apply keeps_ret.
  - destruct (_ && _); [| apply IH].
    apply keeps_bind; [apply option_icon_keeps_initialized | intros; apply IH].
  - apply keeps_throw.
Qed.

Lemma getWorkItemFromPolarion_keeps_initialized itemId :
  keeps initialized (getWorkItemFromPolarion cfg remote itemId).
Proof.
  unfold getWorkItemFromPolarion, getStatusDisplayInfo, getStatusMappings,
    fetchStatusMappingsFromPolarion, getWorkitemTypeDisplayInfo,
    getWorkitemTypeMappings, fetchWorkitemTypeMappingsFromPolarion,
    getUserDisplayInfo, getUserInfo, fetchUserFromPolarion, store_user,
    count_exception.
  keeps_auto;
    first [ apply status_options_keeps_initialized
          | apply type_options_keeps_initialized ].
Qed.

Lemma getWorkItem_keeps_initialized workItem :
  keeps initialized (getWorkItem cfg remote workItem).
Proof.
  unfold getWorkItem. keeps_auto.
  apply getWorkItemFromPolarion_keeps_initialized.
Qed.

(** No method other than [initialize] changes whether the session is
    initialized. *)
Lemma invoke_keeps_initialized m : keeps initialized (invoke cfg remote m).
Proof.
  destruct m; unfold invoke, getTitleFromWorkItem, getUrlFromWorkItem,
    downloadWorkitemAttachmentForProject, clearCache;
    keeps_auto; apply getWorkItem_keeps_initialized.
Qed.

(** On a session that is not initialized no method puts anything into
    the item cache. *)
Lemma invoke_offline m s :
  initialized (self s) = false ->
  itemCache (self s) = ∅ ->
  itemCache (self (snd (invoke cfg remote m s))) = ∅.
Proof.
  intros Hinit Hempty.
  destruct m as [workItem | itemId | itemId | workitemId attachmentId projectId |];
    unfold invoke.
  - unfold bind. by rewrite getWorkItem_offline.
  - unfold getTitleFromWorkItem, bind. by rewrite getWorkItem_offline.
  - unfold getUrlFromWorkItem, bind. rewrite getWorkItem_offline by done.
    by rewrite Hempty, lookup_empty.
  - rewrite <- Hempty.
    apply (keeps_bind itemCache); [| intros; apply keeps_ret].
    unfold downloadWorkitemAttachmentForProject. keeps_auto.
  - reflexivity.
Qed.

(** In the life of a session, a session that is not initialized has an
    empty item cache, and a session on which [initialize()] has not run
    is not initialized. *)
Lemma lifetime_offline_empty b s :
  lifetime cfg remote b s ->
  (initialized (self s) = false -> itemCache (self s) = ∅)
  /\ (b = false -> initialized (self s) = false).
Proof.
  induction 1 as [url username password tokenAuth w w' | s Hlife [IH1 IH2]
                 | b m s Hlife [IH1 IH2] | b s w' Hlife [IH1 IH2]].
  - split; intros _; apply (Polarion_new_fresh url username password tokenAuth w).
  - split; [| done]. intros _. rewrite initialize_keeps_itemCache. auto.
  - rewrite invoke_keeps_initialized. split; [| done].
    intros Hinit. by apply invoke_offline; auto.
  - done.
Qed.

(** X26: in the life of a session, a resolve on a session that is not
    initialized returns absent and changes nothing. *)
Lemma getWorkItem_lifetime_offline b workItem s :
  lifetime cfg remote b s ->
  initialized (self s) = false ->
  getWorkItem cfg remote workItem s = (Return None, s).
Proof.
  intros Hlife Hinit. rewrite getWorkItem_offline by done.
  destruct (lifetime_offline_empty b s Hlife) as [Hempty _].
  by rewrite (Hempty Hinit), lookup_empty.
Qed.

End Lifetime.

(** ** The theorems on the concrete installation *)




(** C4 as stated fails for the attachment cache: with a refresh time of
    five minutes, a cached attachment is returned at every time [t], and
    the session and the world, with the requests sent, stay as they were;
    so there is no time of the fetch after which it would be stale. *)
Lemma attachment_never_stale :
  RefreshTime Demo.settings = Some 5
  /\ (forall t,
        downloadWorkitemAttachmentForProject Demo.service "ABC-1" "img1" "P"
          (at_time t Demo.with_attachment)
        = (Return (Some "aW1n"), at_time t Demo.with_attachment))
  /\ ~ (exists fetchedAt,
          forall t,
            5 * 60 * 1000 < Z.abs (t - fetchedAt) ->
            requests (world (snd (downloadWorkitemAttachmentForProject
                                    Demo.service "ABC-1" "img1" "P"
                                    (at_time t Demo.with_attachment))))
            <> requests (world (at_time t Demo.with_attachment))).
Proof.
  assert (forall t,
            downloadWorkitemAttachmentForProject Demo.service "ABC-1" "img1" "P"
              (at_time t Demo.with_attachment)
            = (Return (Some "aW1n"), at_time t Demo.with_attachment)) as Hhit.
  { intros t. reflexivity. }
  split; [reflexivity |]. split; [exact Hhit |].
  intros [fetchedAt Hstale].
  apply (Hstale (fetchedAt + 300001)); [lia |]. by rewrite Hhit.
Qed.

(** The theorem on the demo session: the item stored a moment ago is
    returned as it is, and so is the attachment a day later. *)
Lemma cache_staleness_witness :
  getWorkItem Demo.settings Demo.service "ABC-1" Demo.resolved
  = (Return (Some Demo.item), Demo.resolved)
  /\ downloadWorkitemAttachmentForProject Demo.service "ABC-1" "img1" "P"
       (at_time 86400000 Demo.with_attachment)
     = (Return (Some "aW1n"), at_time 86400000 Demo.with_attachment).
Proof.
  split.
  - apply (proj1 (cache_staleness Demo.settings Demo.service Demo.resolved)
             "ABC-1" {| workitem := Some Demo.item; item_time := 1042 |}).
    + reflexivity.
    + reflexivity.
    + intros (minutes & E & _ & Hlt). injection E as <-.
      vm_compute in Hlt. discriminate.
  - apply (proj1 (proj2 (proj2 (proj2 (proj2
             (cache_staleness Demo.settings Demo.service Demo.with_attachment)))))
             "ABC-1" "img1" "P" "aW1n" 86400000).
    reflexivity.
Defined.


(** The theorem on a status the demo service does not list. *)
Lemma display_fallback_witness :
  fst (getStatusDisplayInfo Demo.settings Demo.service "review" "P" "task"
         Demo.resolved)
  = Return {| st_name := "review"; st_color := None; st_iconPath := None |}.
Proof.
  apply (proj1 (display_fallback Demo.settings Demo.service Demo.resolved)
           "review" "P" "task" Demo.status_map).
  - reflexivity.
  - reflexivity.
Defined.


(** The theorem during the outage. *)
Lemma resolver_boundary_witness :
  fst (getWorkItem Demo.settings Demo.outage "XY-7" (Demo.on Demo.connected))
  = Return None
  /\ fst (downloadWorkitemAttachmentForProject Demo.outage "ABC-1" "img1" "P"
            (Demo.on Demo.connected)) = Return None
  /\ fst (downloadStatusIcon Demo.outage "/icons/open.gif"
            (Demo.on Demo.connected)) = Return None.
Proof.
  destruct (resolver_boundary Demo.settings Demo.outage)
    as (_ & _ & _ & _ & Hitem & Hattachment & Hicon).
  split; [| split].
  - apply Hitem; [reflexivity | exact I | discriminate].
  - by apply (Hattachment "ABC-1" "img1" "P" (Demo.on Demo.connected)).
  - by apply (Hicon "/icons/open.gif" (Demo.on Demo.connected)).
Defined.


(** The mapping built from the three options of the demo service: the
    option without a color gets [#000000], the option without a name is
    left out. *)
Example status_map_built :
  statuses <$>
    statusCache
      (self (snd (fetchStatusMappingsFromPolarion Demo.service "P" "task"
                    (Demo.on Demo.connected)))) !! "P:task"
  = Some Demo.status_map.
Proof. reflexivity. Qed.

(** The scenario of the specification: the item [ABC-1] of project [P]
    with status [open], which the status list maps to [Open]. *)
Example resolve_abc1 :
  fst (getWorkItem Demo.settings Demo.service "ABC-1" (Demo.on Demo.connected))
  = Return (Some Demo.item)
  /\ st_name (wi_status Demo.item) = "Open".
Proof. split; reflexivity. Qed.

(** The restart, seen from outside: after the third failure of the demo
    session the exported variable refers to a second session, which is
    not initialized and whose initialization is pending; once that has
    run against the working service the second session is initialized
    and a second connection event has been fired. *)
Example restart_then_initialize :
  let failed :=
    fetch_each Demo.settings Demo.outage ["XY-1"; "XY-2"; "XY-3"] in
  match call_polarion failed Demo.connected with
  | Some (_, w) =>
      polarion w = Some 1%nat
      /\ starting w = [1%nat]
      /\ (initialized <$> heap w) = [true; false]
      /\ (exceptionCount <$> heap w) = [2; 0]
      /\ match resume Demo.settings Demo.service 1 w with
         | Some w' =>
             (initialized <$> heap w') = [true; true]
             /\ connectionEvents w' = [true; true]
             /\ starting w' = []
         | None => False
         end
  | None => False
  end.
Proof. vm_compute. repeat split. Qed.

(** * Further properties *)

(** ** What the resolver methods leave alone *)

Section Preserves.

Context (R : St -> St -> Prop).
Hypothesis R_refl : forall s, R s s.
Hypothesis R_trans : forall s1 s2 s3, R s1 s2 -> R s2 s3 -> R s1 s3.

Lemma preserves_ret {A} (a : A) : preserves R (ret a).
Proof. intros s. apply R_refl. Qed.

Lemma preserves_throw {A} e : preserves R (throw (A := A) e).
Proof. intros s. apply R_refl. Qed.

Lemma preserves_get_self : preserves R get_self.
Proof. intros s. apply R_refl. Qed.

Lemma preserves_get_this : preserves R get_this.
Proof. intros s. apply R_refl. Qed.

Lemma preserves_now : preserves R now.
Proof. intros s. apply R_refl. Qed.

Lemma preserves_bind {A B} (m : M A) (k : A -> M B) :
  preserves R m -> (forall a, preserves R (k a)) -> preserves R (bind m k).
Proof.
  intros Hm Hk s. specialize (Hm s). unfold bind.
  destruct (m s) as [[a | e] s1]; simpl in *; [| done].
  eapply R_trans; [exact Hm | apply Hk].
Qed.

Lemma preserves_try_catch {A} (m : M A) (h : JsError -> M A) :
  preserves R m -> (forall e, preserves R (h e)) -> preserves R (try_catch m h).
Proof.
  intros Hm Hh s. specialize (Hm s). unfold try_catch.
  destruct (m s) as [[a | e] s1]; simpl in *; [done |].
  eapply R_trans; [exact Hm | apply Hh].
Qed.

Lemma preserves_when c m : preserves R m -> preserves R (when c m).
Proof. destruct c; [done | intros _; apply preserves_ret]. Qed.

End Preserves.

Lemma undisturbed_refl s : undisturbed s s.
Proof.
  unfold undisturbed. repeat match goal with |- _ /\ _ => split end; try done.
  by exists []; rewrite app_nil_r.
Qed.

Lemma undisturbed_trans s1 s2 s3 :
  undisturbed s1 s2 -> undisturbed s2 s3 -> undisturbed s1 s3.
Proof.
  unfold undisturbed.
  intros (A1 & A2 & A3 & A4 & A5 & A6 & A7 & A8 & A9 & A10 & A11 & A12 & A13
          & A14 & A15 & n1 & A16)
         (B1 & B2 & B3 & B4 & B5 & B6 & B7 & B8 & B9 & B10 & B11 & B12 & B13
          & B14 & B15 & n2 & B16).
  repeat match goal with |- _ /\ _ => split end;
    try congruence; try lia; [tauto |].
  exists (n1 ++ n2). by rewrite B16, A16, app_assoc.
Qed.

(** A step that changes none of the parts in question. *)
Ltac undisturbed_now :=
  unfold undisturbed; simpl; repeat match goal with |- _ /\ _ => split end;
  try done; try lia; by exists []; rewrite app_nil_r.

Lemma undisturbed_report msg level :
  preserves undisturbed (report msg level false).
Proof. intros s. rewrite report_log. undisturbed_now. Qed.

Lemma undisturbed_http_get {A} remote path ps rt hs
    (api : list Request -> Reply A) :
  preserves undisturbed (http_get remote path ps rt hs api).
Proof. intros s. unfold http_get. destruct (api _); undisturbed_now. Qed.

Lemma Polarion_new_world url username password tokenAuth w :
  notifications (snd (Polarion_new url username password tokenAuth w))
  = notifications w
  /\ connectionEvents (snd (Polarion_new url username password tokenAuth w))
     = connectionEvents w
  /\ clock (snd (Polarion_new url username password tokenAuth w)) = clock w.
Proof.
  unfold Polarion_new. cbv zeta. unfold bind at 1. rewrite report_log.
  unfold bind at 1. rewrite report_log.
  by destruct tokenAuth; rewrite report_log.
Qed.

(** The two things [createPolarion] can do: write one line to the output
    channel, or make a session and put it at the end of the heap. *)
Lemma createPolarion_cases cfg w (P : World -> Prop) :
  (forall line, P (set_outputChannel (line :: outputChannel w) w)) ->
  (forall url username password tokenAuth,
     P (let '(newPolarion, w1) :=
          Polarion_new url username password tokenAuth w in
        let ref := length (heap w1) in
        set_starting (ref :: starting w1)
          (set_polarion (Some ref) (set_heap (heap w1 ++ [newPolarion]) w1)))) ->
  P (createPolarion cfg w).
Proof.
  intros Hline Hnew. unfold createPolarion.
  destruct (configFile cfg) as [fileConfig |]; cbv zeta beta iota;
    repeat match goal with
    | |- context [if ?c then _ else _] => destruct c
    end; first [apply Hline | apply Hnew].
Qed.

(** [createPolarion] sends nothing, shows nothing, fires nothing and
    lets no time pass; the session objects that exist stay as they are,
    and at most one is added after them. *)
Lemma createPolarion_world cfg w :
  notifications (createPolarion cfg w) = notifications w
  /\ connectionEvents (createPolarion cfg w) = connectionEvents w
  /\ clock (createPolarion cfg w) = clock w
  /\ requests (createPolarion cfg w) = requests w
  /\ (exported_session w -> exported_session (createPolarion cfg w))
  /\ exists news,
       heap (createPolarion cfg w) = heap w ++ news /\ (length news <= 1)%nat.
Proof.
  apply (createPolarion_cases cfg w (fun w' =>
    notifications w' = notifications w
    /\ connectionEvents w' = connectionEvents w
    /\ clock w' = clock w
    /\ requests w' = requests w
    /\ (exported_session w -> exported_session w')
    /\ exists news, heap w' = heap w ++ news /\ (length news <= 1)%nat)).
  - intros line. simpl.
    repeat match goal with |- _ /\ _ => split end; try done.
    exists []. rewrite app_nil_r. split; [done | simpl; lia].
  - intros a b c d.
    destruct (Polarion_new_world a b c d w) as (Hn & He & Hc).
    destruct (Polarion_new_fresh a b c d w) as (_ & Hheap & _).
    pose proof (Polarion_new_requests a b c d w) as Hr.
    destruct (Polarion_new a b c d w) as [p w1]. simpl in *.
    repeat match goal with |- _ /\ _ => split end; try done.
    + intros _. exists (length (heap w1)). simpl.
      split; [done |]. rewrite length_app. simpl. lia.
    + exists [p]. rewrite Hheap. split; [done | simpl; lia].
Qed.

Lemma undisturbed_createPolarion cfg :
  preserves undisturbed (update_world (createPolarion cfg)).
Proof.
  intros s. destruct (createPolarion_world cfg (world s))
    as (Hn & He & _ & _ & Hexp & news & Hheap & _).
  unfold undisturbed. simpl.
  repeat match goal with |- _ /\ _ => split end; try done. by exists news.
Qed.

Ltac undisturbed_step :=
  lazymatch goal with
  | |- preserves _ (bind _ _) =>
      apply (preserves_bind _ undisturbed_trans); [| intros ?]
  | |- preserves _ (try_catch _ _) =>
      apply (preserves_try_catch _ undisturbed_trans); [| intros ?]
  | |- preserves _ (ret _) => apply (preserves_ret _ undisturbed_refl)
  | |- preserves _ (throw _) => apply (preserves_throw _ undisturbed_refl)
  | |- preserves _ get_self => apply (preserves_get_self _ undisturbed_refl)
  | |- preserves _ get_this => apply (preserves_get_this _ undisturbed_refl)
  | |- preserves _ now => apply (preserves_now _ undisturbed_refl)
  | |- preserves _ (report _ _ false) => apply undisturbed_report
  | |- preserves _ (http_get _ _ _ _ _ _) => apply undisturbed_http_get
  | |- preserves _ (update_world (createPolarion _)) =>
      apply undisturbed_createPolarion
  | |- preserves _ (update _) => intros ?; undisturbed_now
  | |- preserves _ (when _ _) => apply (preserves_when _ undisturbed_refl)
  | |- preserves _ (if ?c then _ else _) => destruct c
  | |- preserves _ (match ?x with _ => _ end) => destruct x
  end.

Section Undisturbed.

Context (cfg : Settings) (remote : Remote).

Lemma undisturbed_downloadStatusIcon iconURL :
  preserves undisturbed (downloadStatusIcon remote iconURL).
Proof. unfold downloadStatusIcon. repeat undisturbed_step. Qed.

Lemma undisturbed_option_icon what o :
  preserves undisturbed (option_icon what (downloadStatusIcon remote) o).
Proof.
  unfold option_icon. repeat undisturbed_step.
  apply undisturbed_downloadStatusIcon.
Qed.

Lemma undisturbed_status_options options statusMap :
  preserves undisturbed (status_options remote options statusMap).
Proof.
  revert statusMap. induction options as [| [o |] rest IH]; intros; simpl.
  - undisturbed_step.
  - destruct (_ && _); [| apply IH].
    undisturbed_step; [apply undisturbed_option_icon | apply IH].
  - undisturbed_step.
Qed.

Lemma undisturbed_type_options options typeMap :
  preserves undisturbed (type_options remote options typeMap).
Proof.
  revert typeMap. induction options as [| [o |] rest IH]; intros; simpl.
  - undisturbed_step.
  - destruct (_ && _); [| apply IH].
    undisturbed_step; [apply undisturbed_option_icon | apply IH].
  - undisturbed_step.
Qed.

Lemma undisturbed_getWorkItemFromPolarion itemId :
  preserves undisturbed (getWorkItemFromPolarion cfg remote itemId).
Proof.
  unfold getWorkItemFromPolarion, getStatusDisplayInfo, getStatusMappings,
    fetchStatusMappingsFromPolarion, getWorkitemTypeDisplayInfo,
    getWorkitemTypeMappings, fetchWorkitemTypeMappingsFromPolarion,
    getUserDisplayInfo, getUserInfo, fetchUserFromPolarion, store_user,
    count_exception.
  repeat undisturbed_step;
    first [ apply undisturbed_status_options
          | apply undisturbed_type_options ].
Qed.

Lemma undisturbed_getWorkItem workItem :
  preserves undisturbed (getWorkItem cfg remote workItem).
Proof.
  unfold getWorkItem. repeat undisturbed_step.
  apply undisturbed_getWorkItemFromPolarion.
Qed.

Lemma undisturbed_downloadWorkitemAttachmentForProject workitemId attachmentId
    projectId :
  preserves undisturbed
    (downloadWorkitemAttachmentForProject remote workitemId attachmentId
       projectId).
Proof. unfold downloadWorkitemAttachmentForProject. repeat undisturbed_step. Qed.

Lemma undisturbed_getTitleFromWorkItem itemId :
  preserves undisturbed (getTitleFromWorkItem cfg remote itemId).
Proof.
  unfold getTitleFromWorkItem. repeat undisturbed_step.
  apply undisturbed_getWorkItem.
Qed.

Lemma undisturbed_getUrlFromWorkItem itemId :
  preserves undisturbed (getUrlFromWorkItem cfg remote itemId).
Proof.
  unfold getUrlFromWorkItem. repeat undisturbed_step.
  apply undisturbed_getWorkItem.
Qed.

End Undisturbed.


(** X2: a resolve called on one session object leaves every other
    session object of the heap as it is, and removes none. *)
Theorem call_getWorkItem_isolated cfg remote ref other workItem w r w' p :
  call ref (getWorkItem cfg remote workItem) w = Some (r, w') ->
  other <> ref ->
  heap w !! other = Some p ->
  heap w' !! other = Some p /\ (length (heap w) <= length (heap w'))%nat.
Proof.
  unfold call. intros Hcall Hne Hother.
  destruct (heap w !! ref) as [q |] eqn:Href; [| done].
  pose proof (undisturbed_getWorkItem cfg remote workItem
                {| this := ref; self := q; world := w |}) as Hframe.
  destruct (getWorkItem cfg remote workItem _) as [r1 s1].
  injection Hcall as <- <-. simpl in *.
  destruct Hframe as (_ & _ & _ & _ & _ & _ & _ & _ & _ & _ & _ & _ & _ & _
                      & _ & news & Hheap).
  simpl in Hheap. rewrite Hheap, length_insert, length_app. split; [| lia].
  rewrite list_lookup_insert_ne by done.
  by apply lookup_app_l_Some.
Qed.

(** ** Clearing the caches *)

Section Clear.

Context (cfg : Settings) (remote : Remote).

(** X3: [clearCache] empties the six caches, keeps the exception counter
    and the authentication headers, and sends nothing; on an initialized
    session the next resolve of any id, also one that was cached a
    moment ago, asks the service for the item again. *)
Theorem clearCache_refetch workItem s :
  initialized (self s) = true ->
  itemCache (self (snd (clearCache s))) = ∅
  /\ attachmentCache (self (snd (clearCache s))) = ∅
  /\ statusCache (self (snd (clearCache s))) = ∅
  /\ workitemTypeCache (self (snd (clearCache s))) = ∅
  /\ iconCache (self (snd (clearCache s))) = ∅
  /\ userCache (self (snd (clearCache s))) = ∅
  /\ exceptionCount (self (snd (clearCache s))) = exceptionCount (self s)
  /\ authHeaders (self (snd (clearCache s))) = authHeaders (self s)
  /\ requests (world (snd (clearCache s))) = requests (world s)
  /\ item_fetches workItem
       (world (snd (getWorkItem cfg remote workItem (snd (clearCache s)))))
     = S (item_fetches workItem (world s)).
Proof.
  intros Hinit. repeat split; try reflexivity.
  set (s1 := snd (clearCache s)).
  assert (initialized (self s1) = true) as Hinit1 by exact Hinit.
  assert (needs_fetch cfg workItem s1) as Hneed.
  { unfold needs_fetch. subst s1. simpl. by rewrite lookup_empty. }
  destruct (getWorkItem_fetch cfg remote workItem s1 Hinit1 Hneed)
    as (item & s2 & Hfetch & ->).
  destruct (getWorkItemFromPolarion_requests cfg remote (other_than workItem)
              workItem s1 (other_than_short workItem) Hinit1)
    as (extra & E & F).
  rewrite Hfetch in E. simpl in E. unfold item_fetches. simpl. rewrite E.
  rewrite filter_app, (filter_other_than _ _ F), filter_cons_True by done.
  done.
Qed.

End Clear.

(** ** Downloads *)

Lemma mime_of_range iconURL :
  mime_of iconURL ∈ ["image/png"; "image/gif"; "image/jpeg"; "image/svg+xml"].
Proof.
  unfold mime_of.
  repeat match goal with
  | |- context [if ?c then _ else _] => destruct c
  end; set_solver.
Qed.

Lemma base64_empty data : Js.base64 data = "" <-> data = "".
Proof.
  split; [| by intros ->].
  destruct data as [| a [| b [| c r]]]; [done | done | done |].
  unfold Js.base64. simpl. discriminate.
Qed.

Section Downloads.

Context (remote : Remote).

(** X4: an icon that is not in the cache and that the service delivers
    with status 200 comes back as a data URI of one of the four image
    types, with one request; after that the same URL gives the same data
    URI at any time and whatever the service would answer, with no
    request and no other change. *)
Theorem downloadStatusIcon_round_trip iconURL data s :
  iconCache (self s) !! iconURL = None ->
  binary_api remote (requests (world s)) iconURL = Response 200 data ->
  fst (downloadStatusIcon remote iconURL s)
  = Return (Some (data_uri iconURL data))
  /\ requests (world (snd (downloadStatusIcon remote iconURL s)))
     = icon_query iconURL (common (httpClient (self s)) !! "Authorization")
       :: requests (world s)
  /\ mime_of iconURL
     ∈ ["image/png"; "image/gif"; "image/jpeg"; "image/svg+xml"]
  /\ forall remote' t,
       downloadWorkitemTypeIcon remote' iconURL
         (at_time t (snd (downloadStatusIcon remote iconURL s)))
       = (Return (Some (data_uri iconURL data)),
          at_time t (snd (downloadStatusIcon remote iconURL s))).
Proof.
  intros Hmiss Hreply.
  assert (downloadStatusIcon remote iconURL s
          = (Return (Some (data_uri iconURL data)),
             {| this := this s;
                self := set_iconCache
                          (<[iconURL := data_uri iconURL data]>
                             (iconCache (self s))) (self s);
                world :=
                  set_clock (clock (world s) + latency remote (requests (world s)))
                    (set_requests
                       (icon_query iconURL
                          (common (httpClient (self s)) !! "Authorization")
                        :: requests (world s)) (world s)) |})) as E.
  { unfold downloadStatusIcon, try_catch. unfold bind at 1.
    unfold get_self at 1. rewrite Hmiss. unfold bind at 1.
    unfold http_get. simpl. by rewrite Hreply. }
  rewrite E. simpl. split; [done |]. split; [done |].
  split; [apply mime_of_range |].
  intros remote' t.
  unfold downloadWorkitemTypeIcon, downloadStatusIcon, try_catch, bind,
    get_self, ret. simpl. by rewrite lookup_insert_eq.
Qed.

(** X5: an attachment that is not in the cache and that the service
    delivers with status 200 comes back as the base64 text of its bytes,
    with one request to the attachment endpoint of the project; after
    that the same item and attachment give the same text at any time and
    whatever the service would answer, with no request, except that an
    attachment without bytes, whose text is empty, gives [null] from the
    cache. *)
Theorem downloadWorkitemAttachment_round_trip workitemId attachmentId
    projectId data s :
  attachmentCache (self s) !! (workitemId +:+ ":" +:+ attachmentId) = None ->
  binary_api remote (requests (world s))
    (attachment_url projectId workitemId attachmentId) = Response 200 data ->
  fst (downloadWorkitemAttachmentForProject remote workitemId attachmentId
         projectId s) = Return (Some (Js.base64 data))
  /\ requests (world (snd (downloadWorkitemAttachmentForProject remote
                             workitemId attachmentId projectId s)))
     = attachment_query projectId workitemId attachmentId
         (common (httpClient (self s)) !! "Authorization")
       :: requests (world s)
  /\ forall remote' projectId' t,
       downloadWorkitemAttachmentForProject remote' workitemId attachmentId
         projectId'
         (at_time t (snd (downloadWorkitemAttachmentForProject remote
                            workitemId attachmentId projectId s)))
       = (Return (if decide (data = "") then None else Some (Js.base64 data)),
          at_time t (snd (downloadWorkitemAttachmentForProject remote
                            workitemId attachmentId projectId s))).
Proof.
  intros Hmiss Hreply.
  set (key := workitemId +:+ ":" +:+ attachmentId) in *.
  assert (exists w1,
            downloadWorkitemAttachmentForProject remote workitemId attachmentId
              projectId s
            = (Return (Some (Js.base64 data)),
               {| this := this s;
                  self := set_attachmentCache
                            (<[key := Js.base64 data]> (attachmentCache (self s)))
                            (self s);
                  world := w1 |})
            /\ requests w1
               = attachment_query projectId workitemId attachmentId
                   (common (httpClient (self s)) !! "Authorization")
                 :: requests (world s)) as (w1 & E & Hreq).
  { eexists. unfold downloadWorkitemAttachmentForProject, try_catch.
    unfold bind at 1. unfold get_self at 1. fold key. rewrite Hmiss.
    unfold bind at 1. rewrite report_log. unfold bind at 1.
    unfold http_get. simpl. rewrite Hreply. simpl. split; reflexivity. }
  rewrite E. simpl. split; [done |]. split; [exact Hreq |].
  intros remote' projectId' t.
  unfold downloadWorkitemAttachmentForProject, try_catch, bind, get_self, ret.
  simpl. fold key. rewrite lookup_insert_eq.
  destruct (decide (data = "")) as [-> | Hdata]; [done |].
  destruct (String.eqb_spec (Js.base64 data) "") as [Hempty | _]; [| done].
  destruct (Hdata (proj1 (base64_empty data) Hempty)).
Qed.

End Downloads.

(** ** Which failures count *)

Section Counting.

Context (cfg : Settings) (remote : Remote).

(** The state after the [catch] of a rejected work item query, before
    the restart policy is looked at: the request is in the history and
    two lines are in the output channel. *)
Lemma getWorkItemFromPolarion_caught itemId e s :
  initialized (self s) = true ->
  workitems_api remote (requests (world s)) itemId = Rejected e ->
  exists w1,
    getWorkItemFromPolarion cfg remote itemId s
    = (if status_is e 404 || status_is e 401 || status_is e 403
       then (Return None, {| this := this s; self := self s; world := w1 |})
       else
         (count_exception cfg ;; ret None)
           {| this := this s; self := self s; world := w1 |})
    /\ requests w1
       = item_query itemId (common (httpClient (self s)) !! "Authorization")
         :: requests (world s)
    /\ same_sessions (world s) w1.
Proof.
  intros Hinit Hreply.
  unfold getWorkItemFromPolarion. unfold bind at 1. unfold get_self at 1.
  rewrite Hinit. change (negb true) with false. cbv iota.
  rewrite try_report_get, Hreply. cbv zeta.
  destruct (status_is e 404), (status_is e 401), (status_is e 403);
    simpl orb; cbv iota; eexists;
    (split;
     [ first [ unfold bind at 1; unfold bind at 1; rewrite report_log;
               reflexivity
             | unfold bind; rewrite report_log; reflexivity ]
     | split; [reflexivity | by repeat split] ]).
Qed.

(** X6: a work item query rejected with status 404, 401 or 403 gives
    absent after that one request; the session object, with its
    exception counter, is as before, and no session is created, whatever
    the restart limit. *)
Theorem getWorkItemFromPolarion_uncounted itemId e s :
  initialized (self s) = true ->
  workitems_api remote (requests (world s)) itemId = Rejected e ->
  status_is e 404 || status_is e 401 || status_is e 403 = true ->
  fst (getWorkItemFromPolarion cfg remote itemId s) = Return None
  /\ self (snd (getWorkItemFromPolarion cfg remote itemId s)) = self s
  /\ same_sessions (world s)
       (world (snd (getWorkItemFromPolarion cfg remote itemId s)))
  /\ requests (world (snd (getWorkItemFromPolarion cfg remote itemId s)))
     = item_query itemId (common (httpClient (self s)) !! "Authorization")
       :: requests (world s).
Proof.
  intros Hinit Hreply Hstatus.
  destruct (getWorkItemFromPolarion_caught itemId e s Hinit Hreply)
    as (w1 & -> & Hreq & Hsame).
  rewrite Hstatus. by simpl.
Qed.

(** X7: without a positive restart limit no failure creates a session:
    when the limit is not set or zero a rejected query leaves the
    session object, with its counter, as it is; when the limit is
    negative a failure other than 404, 401 and 403 adds one to the
    counter, however high it is. *)
Theorem getWorkItemFromPolarion_unlimited itemId e s :
  initialized (self s) = true ->
  workitems_api remote (requests (world s)) itemId = Rejected e ->
  (forall limit, ExceptionRestart cfg = Some limit -> limit <= 0) ->
  same_sessions (world s)
    (world (snd (getWorkItemFromPolarion cfg remote itemId s)))
  /\ (truthy_num (ExceptionRestart cfg) = false ->
      self (snd (getWorkItemFromPolarion cfg remote itemId s)) = self s)
  /\ (truthy_num (ExceptionRestart cfg) = true -> transport_failure e ->
      self (snd (getWorkItemFromPolarion cfg remote itemId s))
      = set_exceptionCount (exceptionCount (self s) + 1) (self s)).
Proof.
  intros Hinit Hreply Hlimit.
  destruct (getWorkItemFromPolarion_caught itemId e s Hinit Hreply)
    as (w1 & -> & Hreq & Hsame).
  destruct (status_is e 404 || status_is e 401 || status_is e 403) eqn:Hstatus.
  - simpl. split; [done |]. split; [done |].
    intros _ (H404 & H401 & H403). by rewrite H404, H401, H403 in Hstatus.
  - unfold count_exception, when.
    destruct (ExceptionRestart cfg) as [limit |] eqn:Hcfg; simpl truthy_num.
    + specialize (Hlimit limit eq_refl).
      destruct (Z.eqb_spec limit 0) as [-> | Hnz]; simpl negb; cbv iota.
      * simpl. split; [done |]. by split.
      * unfold bind, get_self, update, ret. simpl.
        destruct (Z.ltb_spec 0 limit); [lia |].
        rewrite andb_false_r. simpl. split; [done |]. by split.
    + simpl. split; [done |]. by split.
Qed.

End Counting.

(** ** How [initialize] ends *)

Section Initialize.

Context (cfg : Settings) (remote : Remote).








End Initialize.

(** ** The item a fetch returns *)

Section Found.

Context (cfg : Settings) (remote : Remote).

Lemma undisturbed_getStatusDisplayInfo statusId projectId workitemType :
  preserves undisturbed
    (getStatusDisplayInfo cfg remote statusId projectId workitemType).
Proof.
  unfold getStatusDisplayInfo, getStatusMappings,
    fetchStatusMappingsFromPolarion.
  repeat undisturbed_step; apply undisturbed_status_options.
Qed.

Lemma undisturbed_getWorkitemTypeDisplayInfo typeId projectId :
  preserves undisturbed (getWorkitemTypeDisplayInfo cfg remote typeId projectId).
Proof.
  unfold getWorkitemTypeDisplayInfo, getWorkitemTypeMappings,
    fetchWorkitemTypeMappingsFromPolarion.
  repeat undisturbed_step; apply undisturbed_type_options.
Qed.

Lemma undisturbed_getUserDisplayInfo userId :
  preserves undisturbed (getUserDisplayInfo cfg remote userId).
Proof.
  unfold getUserDisplayInfo, getUserInfo, fetchUserFromPolarion, store_user.
  repeat undisturbed_step.
Qed.

Lemma then_absent {A B} (m : M A) (x : B) s :
  fst ((m ;; ret None) s) <> Return (Some x).
Proof. unfold bind, ret. by destruct (m s) as [[a | e] s1]. Qed.

(** X11: an item that a fetch returns comes from a reply with status 200
    whose list starts with an item; its title, type id, status id,
    author id and project id are not empty (a missing one is [No title]
    or [unknown]), and its attachment loader is bound to the session
    that fetched it, to the id that was asked for and to the project of
    the item. *)
Theorem getWorkItemFromPolarion_found itemId item s :
  fst (getWorkItemFromPolarion cfg remote itemId s) = Return (Some item) ->
  initialized (self s) = true
  /\ (exists workItem rest,
        workitems_api remote (requests (world s)) itemId
        = Response 200 (Some (Some workItem :: rest)))
  /\ wi_title item <> "" /\ wi_type_id item <> "" /\ wi_status_id item <> ""
  /\ wi_author_id item <> "" /\ wi_project_id item <> ""
  /\ wi_unresolvable item = "false"
  /\ wi_downloadAttachment item
     = {| dl_session := this s; dl_itemId := itemId;
          dl_projectId := wi_project_id item |}.
Proof.
  intros Hres.
  destruct (initialized (self s)) eqn:Hinit.
  2: { unfold getWorkItemFromPolarion, bind, get_self in Hres.
       rewrite Hinit in Hres. change (negb false) with true in Hres.
       by cbv iota in Hres. }
  split; [done |].
  destruct (workitems_api remote (requests (world s)) itemId)
    as [status data | e] eqn:Hreply.
  2: { by rewrite (getWorkItemFromPolarion_rejected cfg remote itemId e s)
         in Hres. }
  destruct (Z.eqb_spec status 200) as [-> | Hstatus].
  2: { rewrite (getWorkItemFromPolarion_nothing cfg remote itemId s) in Hres;
         [done | done |].
       intros workItem rest. rewrite Hreply. congruence. }
  destruct data as [[| [workItem |] rest] |].
  1, 3, 4: rewrite (getWorkItemFromPolarion_nothing cfg remote itemId s)
             in Hres; [done | done | by rewrite Hreply].
  split; [by eexists _, _ |].
  revert Hres.
  unfold getWorkItemFromPolarion. unfold bind at 1. unfold get_self at 1.
  rewrite Hinit. change (negb true) with false. cbv iota.
  rewrite try_report_get, Hreply. cbv zeta. cbn [fst snd]. cbv iota beta.
  change (200 =? 200) with true. cbv iota.
  unfold try_catch. unfold bind at 1. rewrite report_log.
  unfold bind at 1.
  match goal with
  | |- context [getStatusDisplayInfo cfg remote ?a ?b ?c ?s1] =>
      pose proof (undisturbed_getStatusDisplayInfo a b c s1) as [Hthis1 _];
      destruct (getStatusDisplayInfo cfg remote a b c s1)
        as [[statusInfo | e1] s2]
  end; [| intros Hres; by apply then_absent in Hres].
  unfold bind at 1.
  match goal with
  | |- context [getWorkitemTypeDisplayInfo cfg remote ?a ?b s2] =>
      pose proof (undisturbed_getWorkitemTypeDisplayInfo a b s2) as [Hthis2 _];
      destruct (getWorkitemTypeDisplayInfo cfg remote a b s2)
        as [[typeInfo | e2] s3]
  end; [| intros Hres; by apply then_absent in Hres].
  unfold bind at 1.
  match goal with
  | |- context [getUserDisplayInfo cfg remote ?a s3] =>
      pose proof (undisturbed_getUserDisplayInfo a s3) as [Hthis3 _];
      destruct (getUserDisplayInfo cfg remote a s3) as [[authorInfo | e3] s4]
  end; [| intros Hres; by apply then_absent in Hres].
  unfold bind, get_this, ret. simpl in *.
  intros [= <-]. simpl.
  rewrite Hthis3, Hthis2, Hthis1.
  repeat split; by apply or_else_nonempty.
Qed.

End Found.

(** ** What a failed lookup leaves in the caches *)

Section Negative.

Context (cfg : Settings) (remote : Remote).

(** X12: when the service does not answer the user query with status 200
    and attributes (it rejects it, answers with another status, or with
    no data), the resolver returns the id as name and stores this
    fallback under the id with the time of the store, after that one
    request; as long as this entry is not expired the resolver answers
    with the fallback and does not ask the service again. *)
Theorem getUserInfo_fallback_cached userId s :
  initialized (self s) = true ->
  userCache (self s) !! userId = None ->
  (forall attributes,
     users_api remote (requests (world s)) userId
     <> Response 200 (Some (Some attributes))) ->
  let s1 := snd (getUserInfo cfg remote userId s) in
  fst (getUserInfo cfg remote userId s) = Return (name_only userId)
  /\ userCache (self s1) !! userId
     = Some {| user := name_only userId; user_time := clock (world s1) |}
  /\ requests (world s1)
     = user_query userId (common (httpClient (self s)) !! "Authorization")
       :: requests (world s)
  /\ (forall s2,
        self s2 = self s1 ->
        expired cfg (clock (world s2)) (clock (world s1)) = false ->
        getUserInfo cfg remote userId s2 = (Return (name_only userId), s2)).
Proof.
  intros Hinit Hmiss Hunknown s1.
  assert (fst (getUserInfo cfg remote userId s) = Return (name_only userId)
          /\ userCache (self s1) !! userId
             = Some {| user := name_only userId;
                       user_time := clock (world s1) |}
          /\ requests (world s1)
             = user_query userId
                 (common (httpClient (self s)) !! "Authorization")
               :: requests (world s)
          /\ initialized (self s1) = true) as (Hres & Hentry & Hreq & Hinit1).
  { subst s1.
    destruct (getUserInfo cfg remote userId s) as [r s1] eqn:Hrun.
    simpl. revert Hrun. unfold getUserInfo.
    unfold bind at 1. unfold get_self at 1. rewrite Hinit, Hmiss.
    change (negb true) with false. cbv iota.
    unfold bind at 1. unfold ret at 1. unfold when. unfold bind at 1.
    unfold fetchUserFromPolarion. rewrite try_report_get. cbv zeta.
    destruct (users_api remote (requests (world s)) userId)
      as [status data | e] eqn:Hreply.
    - cbn [fst snd].
      destruct (Z.eqb_spec status 200) as [-> | Hstatus];
        [destruct data as [[attributes |] |];
           [by destruct (Hunknown attributes) | |] | ];
        unfold try_catch, store_user, bind, now, update, report, update_world,
          get_self, when, ret; simpl; rewrite lookup_insert_eq;
        intros [= <- <-]; simpl; by rewrite lookup_insert_eq.
    - unfold store_user, bind, now, update, report, update_world, get_self,
        when, ret; simpl. rewrite lookup_insert_eq.
      intros [= <- <-]; simpl; by rewrite lookup_insert_eq. }
  split; [done |]. split; [done |]. split; [done |].
  intros s2 Hself Hfresh.
  by rewrite (getUserInfo_hit cfg remote userId
                {| user := name_only userId; user_time := clock (world s1) |}
                s2) by (rewrite ?Hself; done).
Qed.

(** X13: a rejected status query leaves an empty mapping in the status
    cache, with the time of the store; until that entry expires every
    status of the project and type is displayed by its id, without color
    and icon, and the service is not asked again. *)
Theorem getStatusMappings_rejected projectId workitemType e s :
  initialized (self s) = true ->
  statusCache (self s) !! (projectId +:+ ":" +:+ workitemType) = None ->
  status_api remote (requests (world s)) projectId workitemType = Rejected e ->
  let s1 := snd (getStatusMappings cfg remote projectId workitemType s) in
  fst (getStatusMappings cfg remote projectId workitemType s) = Return ∅
  /\ statusCache (self s1) !! (projectId +:+ ":" +:+ workitemType)
     = Some {| statuses := ∅; status_time := clock (world s1) |}
  /\ requests (world s1)
     = status_query projectId workitemType
         (common (httpClient (self s)) !! "Authorization")
       :: requests (world s)
  /\ (forall statusId s2,
        self s2 = self s1 ->
        expired cfg (clock (world s2)) (clock (world s1)) = false ->
        getStatusDisplayInfo cfg remote statusId projectId workitemType s2
        = (Return {| st_name := statusId; st_color := None;
                     st_iconPath := None |}, s2)).
Proof.
  intros Hinit Hmiss Hreply s1.
  assert (fst (getStatusMappings cfg remote projectId workitemType s)
          = Return ∅
          /\ statusCache (self s1) !! (projectId +:+ ":" +:+ workitemType)
             = Some {| statuses := ∅; status_time := clock (world s1) |}
          /\ requests (world s1)
             = status_query projectId workitemType
                 (common (httpClient (self s)) !! "Authorization")
               :: requests (world s)
          /\ initialized (self s1) = true) as (Hres & Hentry & Hreq & Hinit1).
  { subst s1.
    destruct (getStatusMappings cfg remote projectId workitemType s)
      as [r s1] eqn:Hrun.
    simpl. revert Hrun. unfold getStatusMappings.
    unfold bind at 1. unfold get_self at 1. rewrite Hinit, Hmiss.
    change (negb true) with false. cbv iota.
    unfold bind at 1. unfold ret at 1. unfold when. unfold bind at 1.
    unfold fetchStatusMappingsFromPolarion. rewrite try_report_get, Hreply.
    cbv zeta.
    unfold bind, now, update, report, update_world, get_self, when, ret.
    simpl. rewrite lookup_insert_eq.
    intros [= <- <-]; simpl; by rewrite lookup_insert_eq. }
  split; [done |]. split; [done |]. split; [done |].
  intros statusId s2 Hself Hfresh. unfold getStatusDisplayInfo, bind.
  rewrite (getStatusMappings_hit cfg remote projectId workitemType
             {| statuses := ∅; status_time := clock (world s1) |} s2)
    by (rewrite ?Hself; done).
  simpl. by rewrite lookup_empty.
Qed.

(** X14: a status query that is answered, but not with status 200 and
    data, gives the empty mapping and stores nothing: the session object
    is as before, so the next resolve of a status of this project and
    type sends the query again. *)
Theorem getStatusMappings_no_data projectId workitemType status data s :
  initialized (self s) = true ->
  statusCache (self s) !! (projectId +:+ ":" +:+ workitemType) = None ->
  status_api remote (requests (world s)) projectId workitemType
  = Response status data ->
  status <> 200 \/ data = None ->
  let s1 := snd (getStatusMappings cfg remote projectId workitemType s) in
  fst (getStatusMappings cfg remote projectId workitemType s) = Return ∅
  /\ self s1 = self s
  /\ requests (world s1)
     = status_query projectId workitemType
         (common (httpClient (self s)) !! "Authorization")
       :: requests (world s).
Proof.
  intros Hinit Hmiss Hreply Hnone s1. subst s1.
  destruct (getStatusMappings cfg remote projectId workitemType s)
    as [r s1] eqn:Hrun.
  simpl. revert Hrun. unfold getStatusMappings.
  unfold bind at 1. unfold get_self at 1. rewrite Hinit, Hmiss.
  change (negb true) with false. cbv iota.
  unfold bind at 1. unfold ret at 1. unfold when. unfold bind at 1.
  unfold fetchStatusMappingsFromPolarion. rewrite try_report_get, Hreply.
  cbv zeta. cbn [fst snd].
  assert ((if status =? 200 then data else None) = None) as ->.
  { destruct Hnone as [Hstatus | ->]; [| by destruct (status =? 200)].
    by destruct (Z.eqb_spec status 200). }
  unfold try_catch, bind, report, update_world, get_self, when, ret. simpl.
  rewrite Hmiss. by intros [= <- <-].
Qed.

End Negative.

(** ** Sessions and settings *)

Lemma createPolarion_unconfigured cfg w :
  configured cfg = false ->
  createPolarion cfg w
  = set_outputChannel (settings_error cfg :: outputChannel w) w.
Proof.
  unfold configured, createPolarion, settings_error. intros Hconf.
  destruct (Js.truthy (Url cfg)); simpl in Hconf;
    destruct (configFile cfg) as [fileConfig |]; cbv zeta beta iota;
    by rewrite ?Hconf.
Qed.

(** X15: with settings that are not complete (no URL, or token
    authentication off and no user or no password), [createPolarion]
    makes no session and starts no initialization: the exported variable
    refers to the session it referred to before, if any; the one thing
    that happens is a line in the output channel, which names the URL
    when that is missing and the credentials otherwise; no notification
    is shown. *)
Theorem createPolarion_incomplete cfg w :
  configured cfg = false ->
  same_sessions w (createPolarion cfg w)
  /\ outputChannel (createPolarion cfg w) = settings_error cfg :: outputChannel w
  /\ notifications (createPolarion cfg w) = notifications w
  /\ connectionEvents (createPolarion cfg w) = connectionEvents w
  /\ requests (createPolarion cfg w) = requests w
  /\ clock (createPolarion cfg w) = clock w.
Proof.
  intros Hconf. rewrite createPolarion_unconfigured by done.
  by repeat split.
Qed.

(** X16: when there is a configuration file, the user name and the
    password of the VS Code settings play no part in [createPolarion]:
    they are replaced by those of the file, also when the file has
    none, in which case, with token authentication off, no session is
    made whatever the settings say. *)
Theorem createPolarion_file_overrides cfg fileConfig username password w :
  configFile cfg = Some fileConfig ->
  createPolarion (with_credentials username password cfg) w
  = createPolarion cfg w
  /\ (default (default true (UseTokenAuth cfg)) (fc_useTokenAuth fileConfig)
      = false ->
      Js.truthy (fc_username fileConfig) && Js.truthy (fc_password fileConfig)
      = false ->
      same_sessions w (createPolarion cfg w)).
Proof.
  intros Hfile. split.
  - unfold createPolarion, with_credentials. simpl. by rewrite Hfile.
  - intros Hmode Hcred. rewrite createPolarion_unconfigured; [done |].
    unfold configured. rewrite Hfile, Hmode, Hcred. apply andb_false_r.
Qed.

(** ** The color of the decorations *)

Lemma color_pattern_length s :
  color_pattern s = true -> String.length s = 7%nat.
Proof.
  destruct s as [| c digits]; simpl; [done |].
  intros [[_ Hlen]%andb_prop _]%andb_prop.
  by apply Nat.eqb_eq in Hlen as ->.
Qed.

(** X17: whatever the setting [Polarion.Color] is, the color of the
    decorations is a [#] followed by six digits out of [0-9A-F], seven
    characters in all: a setting of this form is taken as it is, and
    anything else (no setting, lower-case digits, a color name, a short
    form) gives [#777777]. *)
Theorem getDecorateColor_valid settingsColor :
  color_pattern (getDecorateColor settingsColor) = true
  /\ String.length (getDecorateColor settingsColor) = 7%nat
  /\ (getDecorateColor settingsColor = "#777777"
      \/ settingsColor = Some (getDecorateColor settingsColor)).
Proof.
  assert (color_pattern (getDecorateColor settingsColor) = true) as Hvalid.
  { unfold getDecorateColor. destruct (Js.truthy settingsColor); [| done].
    by destruct (color_pattern (default "" settingsColor)) eqn:Hmatch. }
  split; [done |]. split; [by apply color_pattern_length |].
  unfold getDecorateColor. destruct settingsColor as [color |]; [| by left].
  destruct (Js.truthy (Some color)); [| by left].
  destruct (color_pattern (default "" (Some color))); [by right | by left].
Qed.

(** ** The description line of the outline *)









(** ** Decorations and outline entries *)

Section Callers.

Context (cfg : Settings) (remote : Remote).

Lemma returns_getTitleFromWorkItem itemId :
  returns (getTitleFromWorkItem cfg remote itemId).
Proof.
  unfold getTitleFromWorkItem.
  apply returns_bind; [apply returns_getWorkItem | intros; apply returns_ret].
Qed.

(** A method that never throws and disturbs nothing, called on the
    exported session: it returns, and a session is exported afterwards. *)
Lemma call_polarion_returns {A} (m : M A) w :
  returns m -> preserves undisturbed m -> exported_session w ->
  exists a w',
    call_polarion m w = Some (Return a, w') /\ exported_session w'.
Proof.
  intros Hret Hframe (ref & Hpol & Hlt).
  unfold call_polarion, call. rewrite Hpol.
  destruct (lookup_lt_is_Some_2 (heap w) ref Hlt) as [p Hp]. rewrite Hp.
  specialize (Hframe {| this := ref; self := p; world := w |}).
  destruct (Hret {| this := ref; self := p; world := w |}) as (a & s' & Hrun).
  rewrite Hrun in *. simpl in Hframe.
  destruct Hframe as (_ & _ & _ & _ & _ & _ & _ & _ & _ & _ & _ & _ & _ & _
                      & Hexp & _).
  destruct Hexp as (ref' & Hpol' & Hlt'); [by exists ref |].
  exists a. eexists. split; [done |].
  exists ref'. simpl. by rewrite length_insert.
Qed.

Lemma getWorkItemText_returns workItem w :
  exported_session w ->
  exists text w',
    getWorkItemText cfg remote workItem w = (Return text, w')
    /\ item_text workItem text /\ exported_session w'.
Proof.
  intros Hexp. unfold getWorkItemText.
  destruct (call_polarion_returns (getTitleFromWorkItem cfg remote workItem) w)
    as (title & w' & -> & Hexp');
    [apply returns_getTitleFromWorkItem
    | apply undisturbed_getTitleFromWorkItem | done |].
  eexists _, w'. split; [done |]. split; [| done].
  destruct title as [title |]; [right; by exists title | by left].
Qed.

Lemma decorate_items_complete decorationColor items decorationsArray w :
  exported_session w ->
  exists titles w',
    decorate_items cfg remote decorationColor items decorationsArray w
    = (Return
         (decorationsArray
          ++ concat (zip_with
                       (fun item title =>
                          decoration decorationColor title <$> item.2)
                       items titles)), w')
    /\ Forall2 (fun item title => item_text item.1 title) items titles
    /\ exported_session w'.
Proof.
  revert decorationsArray w.
  induction items as [| item rest IH]; intros decorationsArray w Hexp; simpl.
  - exists [], w. by rewrite app_nil_r.
  - destruct (getWorkItemText_returns item.1 w Hexp)
      as (title & w1 & -> & Htext & Hexp1).
    destruct (IH (decorationsArray ++ (decoration decorationColor title <$> item.2))
                w1 Hexp1) as (titles & w' & -> & Htitles & Hexp').
    exists (title :: titles), w'. simpl. rewrite <- app_assoc.
    split; [done |]. split; [by constructor | done].
Qed.

(** X19: while a session object is exported, [decorate] does not fail: it
    sets one decoration for every occurrence of every work item, in the
    order of the items, each at columns 200 to 201 of the line of its
    occurrence and in the color [getDecorateColor] gives, which is a
    valid color; the text of all occurrences of an item is the same,
    and it is empty or the id of the item, a colon and a title. *)
Theorem decorate_complete settingsColor items w :
  exported_session w ->
  exists titles decorations w',
    decorate cfg remote settingsColor items w = (Return decorations, w')
    /\ decorations
       = concat (zip_with
                   (fun item title =>
                      decoration (getDecorateColor settingsColor) title
                        <$> item.2)
                   items titles)
    /\ Forall2 (fun item title => item_text item.1 title) items titles
    /\ Forall (fun d =>
                 color_pattern (d_color d) = true
                 /\ start_character (d_range d) = 200
                 /\ end_character (d_range d) = 201) decorations
    /\ exported_session w'.
Proof.
  intros Hexp. unfold decorate.
  destruct (decorate_items_complete (getDecorateColor settingsColor) items [] w
              Hexp) as (titles & w' & -> & Htitles & Hexp').
  exists titles. eexists _, w'. simpl.
  split; [done |]. split; [done |]. split; [done |]. split; [| done].
  assert (color_pattern (getDecorateColor settingsColor) = true) as Hcolor.
  { unfold getDecorateColor. destruct (Js.truthy settingsColor); [| done].
    by destruct (color_pattern (default "" settingsColor)) eqn:Hmatch. }
  clear Htitles. apply Forall_concat.
  revert titles. induction items as [| item rest IH]; intros [| title titles];
    simpl; try done.
  constructor; [| apply IH].
  apply Forall_fmap, Forall_forall. intros itemRange _. by simpl.
Qed.

Lemma findWorkItemsInEditor_from items resultList w :
  exists entries,
    (findWorkItemsInEditor cfg remote items resultList w).1
    = resultList ++ entries
    /\ Forall2 entry_of items entries.
Proof.
  revert resultList w.
  induction items as [| obj rest IH]; intros resultList w.
  - exists []. simpl. by rewrite app_nil_r.
  - assert (exists displayLabel w1,
              findWorkItemsInEditor cfg remote (obj :: rest) resultList w
              = findWorkItemsInEditor cfg remote rest
                  (resultList ++ [workitem_entry displayLabel obj]) w1
              /\ entry_of obj (workitem_entry displayLabel obj))
      as (displayLabel & w1 & -> & Hentry).
    { simpl. unfold polarion_initialized, call_polarion, call.
      destruct (polarion w) as [ref |];
        [destruct (heap w !! ref) as [p |];
           [destruct (initialized p) |] | ].
      2-4: eexists _, _; split; [reflexivity |];
           unfold entry_of; simpl; tauto.
      destruct (returns_getWorkItem cfg remote obj.1
                  {| this := ref; self := p; world := w |})
        as (workItem & s' & ->).
      destruct workItem as [workItem |];
        [destruct (String.eqb_spec (wi_title workItem) "") as [E | E] |];
        simpl; try change (negb true) with false;
        try change (negb false) with true; cbv iota.
      - eexists _, _. split; [reflexivity |].
        unfold entry_of; simpl; tauto.
      - eexists _, _. split; [reflexivity |].
        unfold entry_of; simpl. repeat split; try done.
        right. right. by exists (wi_title workItem).
      - eexists _, _. split; [reflexivity |].
        unfold entry_of; simpl; tauto. }
    destruct (IH (resultList ++ [workitem_entry displayLabel obj]) w1)
      as (entries & -> & Hentries).
    exists (workitem_entry displayLabel obj :: entries).
    rewrite <- app_assoc. split; [done | by constructor].
Qed.

(** X20: the outline has one entry for every occurrence of a work item in
    the document, in their order, each with the id and the range of its
    occurrence; its label is the id alone, the id with a non-empty
    title, or the id marked [(Polarion not connected)].  The label
    [(Title unavailable)] of the [catch] is never given, since the
    resolve does not throw. *)
Theorem findWorkItemsInEditor_entries items w :
  Forall2 entry_of items (findWorkItemsInEditor cfg remote items [] w).1.
Proof.
  destruct (findWorkItemsInEditor_from items [] w) as (entries & -> & H).
  done.
Qed.

Lemma findWorkItemsInEditor_idle items resultList w :
  polarion_initialized w = false ->
  findWorkItemsInEditor cfg remote items resultList w
  = (resultList
     ++ ((fun obj =>
            workitem_entry (obj.1 +:+ " (Polarion not connected)") obj)
         <$> items), w).
Proof.
  intros Hoff. revert resultList.
  induction items as [| obj rest IH]; intros resultList; simpl.
  - by rewrite app_nil_r.
  - rewrite Hoff, IH. by rewrite <- app_assoc.
Qed.

(** X21: while no session is exported, or the exported session is not
    initialized, the outline marks every occurrence as
    [(Polarion not connected)] and calls nothing: no request is sent and
    the world is as it was. *)
Theorem findWorkItemsInEditor_offline items w :
  polarion_initialized w = false ->
  findWorkItemsInEditor cfg remote items [] w
  = ((fun obj => workitem_entry (obj.1 +:+ " (Polarion not connected)") obj)
     <$> items, w).
Proof. intros Hoff. by rewrite findWorkItemsInEditor_idle. Qed.

End Callers.

(** ** The popup budget *)

Lemma within_budget_refl s : within_budget s s.
Proof. unfold within_budget. lia. Qed.

Lemma within_budget_trans s1 s2 s3 :
  within_budget s1 s2 -> within_budget s2 s3 -> within_budget s1 s3.
Proof. unfold within_budget. intros H12 H23 H1. lia. Qed.

Lemma budget_report msg level popup :
  preserves within_budget (report msg level popup).
Proof.
  intros s. unfold within_budget, report, bind, update_world, get_self, when,
    update, ret. simpl.
  destruct popup; simpl; [| lia].
  destruct (Z.ltb_spec 0 (numberOfPopupsToShow (self s))); simpl; lia.
Qed.

Lemma budget_http_get {A} remote path ps rt hs
    (api : list Request -> Reply A) :
  preserves within_budget (http_get remote path ps rt hs api).
Proof.
  intros s. unfold within_budget, http_get. destruct (api _); simpl; lia.
Qed.

Ltac budget_step :=
  lazymatch goal with
  | |- preserves _ (bind _ _) =>
      apply (preserves_bind _ within_budget_trans); [| intros ?]
  | |- preserves _ (try_catch _ _) =>
      apply (preserves_try_catch _ within_budget_trans); [| intros ?]
  | |- preserves _ (ret _) => apply (preserves_ret _ within_budget_refl)
  | |- preserves _ (throw _) => apply (preserves_throw _ within_budget_refl)
  | |- preserves _ get_self => apply (preserves_get_self _ within_budget_refl)
  | |- preserves _ (report _ _ _) => apply budget_report
  | |- preserves _ (http_get _ _ _ _ _ _) => apply budget_http_get
  | |- preserves _ (fire _) => intros ?; unfold within_budget; simpl; lia
  | |- preserves _ (update _) => intros ?; unfold within_budget; simpl; lia
  | |- preserves _ (when _ _) => apply (preserves_when _ within_budget_refl)
  | |- preserves _ (if ?c then _ else _) => destruct c
  end.

Section Budget.

Context (cfg : Settings) (remote : Remote).

Lemma budget_initialize : preserves within_budget (initialize cfg remote).
Proof.
  unfold initialize, retrieveTokenFromSettings, setupAuthentication,
    testConnection.
  repeat budget_step.
Qed.

Lemma budget_invoke m s :
  numberOfPopupsToShow (self (snd (invoke cfg remote m s)))
  = numberOfPopupsToShow (self s).
Proof.
  assert (forall A (k : M A),
            preserves undisturbed k ->
            numberOfPopupsToShow (self (snd ((k ;; ret tt) s)))
            = numberOfPopupsToShow (self s)) as Hframe.
  { intros A k Hk. specialize (Hk s). unfold bind, ret.
    destruct (k s) as [[a | e] s1]; simpl in *;
      by destruct Hk as (_ & _ & _ & _ & _ & _ & _ & _ & _ & -> & _). }
  destruct m; simpl invoke; [apply Hframe .. | done].
  - apply undisturbed_getWorkItem.
  - apply undisturbed_getTitleFromWorkItem.
  - apply undisturbed_getUrlFromWorkItem.
  - apply undisturbed_downloadWorkitemAttachmentForProject.
Qed.

(** X22: in the life of a session object its popup budget stays between
    zero and two: the constructor sets it to two, [initialize] can only
    take from it and never below zero, and no other method changes it. *)
Theorem popup_budget b s :
  lifetime cfg remote b s ->
  0 <= numberOfPopupsToShow (self s) <= 2.
Proof.
  induction 1 as [url username password tokenAuth w w' | s Hlife IH
                 | b m s Hlife IH | b s w' Hlife IH].
  - simpl. unfold Polarion_new. cbv zeta. unfold bind at 1.
    rewrite report_log. unfold bind at 1. rewrite report_log.
    destruct tokenAuth; rewrite report_log; simpl; lia.
  - pose proof (budget_initialize s) as Hb. unfold within_budget in Hb. lia.
  - rewrite budget_invoke. exact IH.
  - exact IH.
Qed.

End Budget.

(** ** The settings check and the session *)

Lemma Polarion_new_mode url username password tokenAuth w :
  useTokenAuth (Polarion_new url username password tokenAuth w).1 = tokenAuth.
Proof.
  unfold Polarion_new. cbv zeta. unfold bind at 1. rewrite report_log.
  unfold bind at 1. rewrite report_log.
  by destruct tokenAuth; rewrite report_log.
Qed.

(** X23: [checkSettings] looks at the setting [UseTokenAuth] alone, and
    not at the configuration file: with a file that turns token
    authentication off and has user and password, while the setting does
    not turn it off, [checkSettings] names no credential as missing and
    announces token authentication, and the session [createPolarion]
    makes has token authentication off. *)
Theorem checkSettings_file_mode cfg project prefix fileConfig w :
  configFile cfg = Some fileConfig ->
  fc_useTokenAuth fileConfig = Some false ->
  UseTokenAuth cfg <> Some false ->
  Js.truthy (Url cfg) = true ->
  Js.truthy (fc_username fileConfig) && Js.truthy (fc_password fileConfig)
  = true ->
  Information "Polarion will use token authentication from VS Code settings"
    ∈ checkSettings cfg project prefix
  /\ (forall name,
        name ∈ missingConfiguration cfg project prefix ->
        name ∈ ["Url"; "Project"; "Prefix"])
  /\ exists p,
       heap (createPolarion cfg w) = heap w ++ [p]
       /\ polarion (createPolarion cfg w) = Some (length (heap w))
       /\ useTokenAuth p = false.
Proof.
  intros Hfile Hoff Hmode Hurl Hcred.
  assert (default true (UseTokenAuth cfg) = true) as Hsetting.
  { destruct (UseTokenAuth cfg) as [[|] |]; done. }
  split; [| split].
  - unfold checkSettings. rewrite Hsetting. cbv zeta.
    apply elem_of_app. right. by left.
  - intros name. unfold missingConfiguration. rewrite Hfile. cbv zeta.
    rewrite app_nil_r.
    destruct (is_empty_string (Url cfg)), (is_empty_string project),
      (is_empty_string prefix); simpl;
      rewrite ?elem_of_cons, ?elem_of_nil; tauto.
  - unfold createPolarion. rewrite Hfile. cbv zeta beta iota.
    rewrite Hurl, Hoff, Hcred. simpl default. cbv iota. simpl orb. cbv iota.
    match goal with
    | |- context [Polarion_new ?a ?b ?c ?d w] =>
        pose proof (Polarion_new_mode a b c d w) as Hnew;
        destruct (Polarion_new_fresh a b c d w) as (_ & Hheap & _);
        destruct (Polarion_new a b c d w) as [p w1]
    end.
    simpl in *. exists p. by rewrite Hheap.
Qed.

(** ** The further properties on the examples *)

(** A resolve on the second session leaves the first one as it is. *)
Lemma call_getWorkItem_isolated_witness :
  heap (default Cases.restarted
          (snd <$> call 1 (getWorkItem Demo.settings Demo.service "ABC-1")
                     Cases.restarted)) !! 0%nat
  = heap Cases.restarted !! 0%nat.
Proof.
  destruct (heap Cases.restarted !! 0%nat) as [p |] eqn:Hp;
    [| vm_compute in Hp; discriminate].
  apply (call_getWorkItem_isolated Demo.settings Demo.service 1 0 "ABC-1"
           Cases.restarted
           (default (Return None)
              (fst <$> call 1 (getWorkItem Demo.settings Demo.service "ABC-1")
                         Cases.restarted))
           _ p).
  - vm_compute. reflexivity.
  - discriminate.
  - exact Hp.
Defined.

(** After [clearCache] the item resolved a moment ago is fetched again. *)
Lemma clearCache_refetch_witness :
  item_fetches "ABC-1"
    (world (snd (getWorkItem Demo.settings Demo.service "ABC-1"
                   (snd (clearCache Demo.resolved)))))
  = S (item_fetches "ABC-1" (world Demo.resolved)).
Proof.
  apply (clearCache_refetch Demo.settings Demo.service "ABC-1" Demo.resolved).
  vm_compute. reflexivity.
Defined.

(** The icon of the status [open] of the demo service. *)
Lemma downloadStatusIcon_round_trip_witness :
  fst (downloadStatusIcon Demo.service "/icons/open.gif"
         (Demo.on Demo.connected))
  = Return (Some (data_uri "/icons/open.gif" "abc")).
Proof.
  apply (downloadStatusIcon_round_trip Demo.service "/icons/open.gif" "abc"
           (Demo.on Demo.connected)).
  - vm_compute. reflexivity.
  - reflexivity.
Defined.

(** The attachment [img1] of [ABC-1]. *)
Lemma downloadWorkitemAttachment_round_trip_witness :
  fst (downloadWorkitemAttachmentForProject Demo.service "ABC-1" "img1" "P"
         (Demo.on Demo.connected))
  = Return (Some (Js.base64 "abc")).
Proof.
  apply (downloadWorkitemAttachment_round_trip Demo.service "ABC-1" "img1" "P"
           "abc" (Demo.on Demo.connected)).
  - vm_compute. reflexivity.
  - reflexivity.
Defined.

(** A query rejected with status 404 leaves the demo session as it is. *)
Lemma getWorkItemFromPolarion_uncounted_witness :
  self (snd (getWorkItemFromPolarion Demo.settings Cases.refusing "XY-7"
               (Demo.on Demo.connected)))
  = self (Demo.on Demo.connected).
Proof.
  apply (getWorkItemFromPolarion_uncounted Demo.settings Cases.refusing "XY-7"
           Cases.not_found (Demo.on Demo.connected)).
  - vm_compute. reflexivity.
  - reflexivity.
  - reflexivity.
Defined.

(** Without a restart limit a failure during the outage leaves the demo
    session as it is. *)
Lemma getWorkItemFromPolarion_unlimited_witness :
  self (snd (getWorkItemFromPolarion Cases.no_restart Demo.outage "XY-7"
               (Demo.on Demo.connected)))
  = self (Demo.on Demo.connected).
Proof.
  apply (getWorkItemFromPolarion_unlimited Cases.no_restart Demo.outage "XY-7"
           Demo.server_error (Demo.on Demo.connected)).
  - vm_compute. reflexivity.
  - reflexivity.
  - intros limit. discriminate.
  - reflexivity.
Defined.



(** The item [ABC-1], as the demo session fetches it. *)
Lemma getWorkItemFromPolarion_found_witness :
  wi_downloadAttachment Demo.item
  = {| dl_session := 0; dl_itemId := "ABC-1";
       dl_projectId := wi_project_id Demo.item |}.
Proof.
  apply (getWorkItemFromPolarion_found Demo.settings Demo.service "ABC-1"
           Demo.item (Demo.on Demo.connected)).
  vm_compute. reflexivity.
Defined.

(** A user the refusing service does not tell about. *)
Lemma getUserInfo_fallback_cached_witness :
  fst (getUserInfo Demo.settings Cases.refusing "u9" (Demo.on Demo.connected))
  = Return (name_only "u9").
Proof.
  apply (getUserInfo_fallback_cached Demo.settings Cases.refusing "u9"
           (Demo.on Demo.connected)).
  - vm_compute. reflexivity.
  - vm_compute. reflexivity.
  - intros attributes. discriminate.
Defined.

(** The status options of project [P], refused. *)
Lemma getStatusMappings_rejected_witness :
  fst (getStatusMappings Demo.settings Cases.refusing "P" "task"
         (Demo.on Demo.connected))
  = Return ∅.
Proof.
  apply (getStatusMappings_rejected Demo.settings Cases.refusing "P" "task"
           Demo.server_error (Demo.on Demo.connected)).
  - vm_compute. reflexivity.
  - vm_compute. reflexivity.
  - reflexivity.
Defined.

(** The status options of project [P], answered with status 204. *)
Lemma getStatusMappings_no_data_witness :
  self (snd (getStatusMappings Demo.settings Cases.silent "P" "task"
               (Demo.on Demo.connected)))
  = self (Demo.on Demo.connected).
Proof.
  apply (getStatusMappings_no_data Demo.settings Cases.silent "P" "task" 204
           None (Demo.on Demo.connected)).
  - vm_compute. reflexivity.
  - vm_compute. reflexivity.
  - reflexivity.
  - by right.
Defined.

(** Without a URL the demo session stays the exported one. *)
Lemma createPolarion_incomplete_witness :
  same_sessions Demo.connected (createPolarion Cases.no_url Demo.connected).
Proof.
  apply (createPolarion_incomplete Cases.no_url Demo.connected).
  reflexivity.
Defined.

(** The user and password of the settings next to a configuration file
    without a user name: no session is made. *)
Lemma createPolarion_file_overrides_witness :
  createPolarion
    (with_credentials (Some "user") (Some "pass") Cases.with_file) Demo.boot
  = createPolarion Cases.with_file Demo.boot
  /\ same_sessions Demo.boot (createPolarion Cases.with_file Demo.boot).
Proof.
  destruct (createPolarion_file_overrides Cases.with_file
              {| fc_username := None; fc_password := Some "secret";
                 fc_token := None; fc_useTokenAuth := None |}
              (Some "user") (Some "pass") Demo.boot) as [Hsame Hnone].
  - reflexivity.
  - split; [exact Hsame |]. apply Hnone; reflexivity.
Defined.

(** The decorations of the example document: three, one for each
    occurrence. *)
Lemma decorate_complete_witness :
  exists decorations w',
    decorate Demo.settings Demo.service (Some "#ff0000") Cases.mapped
      Demo.connected = (Return decorations, w')
    /\ Forall (fun d =>
                 color_pattern (d_color d) = true
                 /\ start_character (d_range d) = 200
                 /\ end_character (d_range d) = 201) decorations.
Proof.
  destruct (decorate_complete Demo.settings Demo.service (Some "#ff0000")
              Cases.mapped Demo.connected)
    as (titles & decorations & w' & Hrun & _ & _ & Hall & _).
  - exists 0%nat. split; [reflexivity | vm_compute; lia].
  - exists decorations, w'. split; [exact Hrun | exact Hall].
Defined.

(** The outline of the example document before the session is
    initialized. *)
Lemma findWorkItemsInEditor_offline_witness :
  oi_label <$>
    (findWorkItemsInEditor Demo.settings Demo.service Cases.listed []
       Demo.created).1
  = ["ABC-1 (Polarion not connected)"; "XY-7 (Polarion not connected)";
     "ABC-1 (Polarion not connected)"].
Proof.
  rewrite (findWorkItemsInEditor_offline Demo.settings Demo.service
             Cases.listed Demo.created).
  - reflexivity.
  - reflexivity.
Defined.

(** The popup budget of a new session after a failed [initialize]. *)
Lemma popup_budget_witness :
  0 <= numberOfPopupsToShow
         (self (snd (initialize Demo.settings Demo.outage Cases.new_session)))
    <= 2.
Proof.
  apply (popup_budget Demo.settings Demo.outage true).
  apply lifetime_initialize.
  apply (lifetime_new Demo.settings Demo.outage "http://polarion.example.com"
           "user" "" false Demo.boot Demo.boot).
Defined.

(** The URL of [ABC-1] for the service URL of the demo settings, which
    ends in [/polarion]. *)
Lemma getUrlFromWorkItem_polarion_suffix_witness :
  fst (getUrlFromWorkItem Demo.settings Demo.service "ABC-1"
         (Demo.on Demo.connected))
  = Return (Some ("http://polarion2020.example.com"
                  +:+ "polarion/#/project/" +:+ wi_project_id Demo.item
                  +:+ "/workitem?id=" +:+ "ABC-1")).
Proof.
  apply (getUrlFromWorkItem_polarion_suffix Demo.settings Demo.service "ABC-1"
           (Demo.on Demo.connected) Demo.item
           "http://polarion2020.example.com").
  - vm_compute. reflexivity.
  - left. vm_compute. reflexivity.
Defined.

(** A new session resolves every id to absent. *)
Lemma getWorkItem_lifetime_offline_witness :
  getWorkItem Demo.settings Demo.service "ABC-1" Cases.new_session
  = (Return None, Cases.new_session).
Proof.
  apply (getWorkItem_lifetime_offline Demo.settings Demo.service false "ABC-1"
           Cases.new_session).
  - apply (lifetime_new Demo.settings Demo.service
             "http://polarion.example.com" "user" "" false Demo.boot Demo.boot).
  - reflexivity.
Defined.

(** The demo settings with token authentication, next to a file that
    turns it off. *)
Lemma checkSettings_file_mode_witness :
  Information "Polarion will use token authentication from VS Code settings"
    ∈ checkSettings Cases.file_basic (Some "P") (Some "ABC").
Proof.
  apply (checkSettings_file_mode Cases.file_basic (Some "P") (Some "ABC")
           {| fc_username := Some "user"; fc_password := Some "secret";
              fc_token := None; fc_useTokenAuth := Some false |} Demo.boot).
  - reflexivity.
  - reflexivity.
  - discriminate.
  - reflexivity.
  - reflexivity.
Defined.
